(** * The vocabulary-learning client: API gateway, word search, review
      session and root controller, embedded from the TypeScript sources.

    Layout of the development:
    - [Js]: the JavaScript values and string operations the sources use;
      the operations that go by Unicode ([toLowerCase], [trim],
      [parseInt]) are the fields of an [Engine], over which the
      properties are proved, with an engine for ASCII texts to run them;
    - [Eff]: the state-and-exception monad that models [async] functions;
    - [Runtime]: what surrounds the client (cookie jar, session history,
      local storage, network, clock) and how a component sits in it;
    - [Api]: [src/lib/api.ts];
    - [WordInput], [ReviewSession], [App]: the search screen, the review
      session and the root controller;
    - [Samples]: concrete browsers and screens;
    - the properties, one group per component. *)

From Stdlib Require Import ZArith Ascii String List Bool Lia.
From stdpp Require Import base option list strings gmap pretty.

Set Warnings "-register-all".

(* ===================================================================== *)
(** ** JavaScript values and strings *)
(* ===================================================================== *)
Module Js.

(** A parsed JSON payload, or any value a component holds in its state.
    Numbers are kept as integers: the client never computes with the
    fractional part of a payload number. *)
Inductive value :=
| VUndefined
| VNull
| VBool (b : bool)
| VNum (n : Z)
| VStr (s : string)
| VArr (items : list value)
| VObj (fields : list (string * value)).

(** What [throw] can carry: an instance of [Error] (TypeError and
    SyntaxError included) with its [message], or any other value. *)
Inductive exn :=
| Error (message : string)
| Thrown (v : value).

(** [if (v)], [v || w], [v && w]. *)
Definition truthy (v : value) : bool :=
  match v with
  | VUndefined | VNull => false
  | VBool b => b
  | VNum n => negb (n =? 0)%Z
  | VStr s => negb (String.eqb s "")
  | VArr _ | VObj _ => true
  end.

Definition or_else (v w : value) : value := if truthy v then v else w.

Fixpoint assoc (k : string) (fs : list (string * value)) : value :=
  match fs with
  | [] => VUndefined
  | (k', v) :: rest => if String.eqb k k' then v else assoc k rest
  end.

Fixpoint join (sep : string) (parts : list string) : string :=
  match parts with
  | [] => ""
  | [p] => p
  | p :: rest => p +:+ sep +:+ join sep rest
  end.

(** [String(v)], as in a template literal or the argument of [new Error]. *)
Fixpoint ToString (v : value) : string :=
  match v with
  | VUndefined => "undefined"
  | VNull => "null"
  | VBool true => "true"
  | VBool false => "false"
  | VNum n => pretty n
  | VStr s => s
  | VArr items =>
      join "," (map (fun x => match x with
                              | VUndefined | VNull => ""
                              | _ => ToString x
                              end) items)
  | VObj _ => "[object Object]"
  end.

(** [s.startsWith(p)] *)
Fixpoint starts_with (p s : string) : bool :=
  match p, s with
  | EmptyString, _ => true
  | String a p', String b s' => if Ascii.eqb a b then starts_with p' s' else false
  | String _ _, EmptyString => false
  end.

(** [s.includes(sub)] *)
Fixpoint includes (s sub : string) : bool :=
  starts_with sub s ||
  match s with
  | EmptyString => false
  | String _ t => includes t sub
  end.

(** [s.split(sep)] for a non-empty separator. [skip] counts the characters
    of a separator just matched that are still to be passed over. *)
Fixpoint split_go (sep : string) (skip : nat) (s : string) : list string :=
  match s with
  | EmptyString => [""]
  | String c t =>
      match skip with
      | S k => split_go sep k t
      | O =>
          if starts_with sep s
          then "" :: split_go sep (String.length sep - 1) t
          else match split_go sep 0 t with
               | p :: ps => String c p :: ps
               | [] => [String c ""]
               end
      end
  end.

Definition split (s sep : string) : list string := split_go sep 0 s.

(** *** White space around a text *)

Section Strip.
Variable blank : ascii -> bool.

Fixpoint stripStart (s : string) : string :=
  match s with
  | EmptyString => ""
  | String c t => if blank c then stripStart t else s
  end.

Fixpoint stripEnd (s : string) : string :=
  match s with
  | EmptyString => ""
  | String c t =>
      match stripEnd t with
      | EmptyString => if blank c then "" else String c ""
      | t' => String c t'
      end
  end.

Definition strip (s : string) : string := stripEnd (stripStart s).

End Strip.

(** White space in the ASCII range: what [String.prototype.trim] strips
    there, and what is dropped around the value of a cookie. *)
Definition is_space (c : ascii) : bool :=
  match nat_of_ascii c with
  | 9 | 10 | 11 | 12 | 13 | 32 => true
  | _ => false
  end.

Definition is_upper (c : ascii) : bool :=
  (65 <=? nat_of_ascii c)%nat && (nat_of_ascii c <=? 90)%nat.
Definition is_lower (c : ascii) : bool :=
  (97 <=? nat_of_ascii c)%nat && (nat_of_ascii c <=? 122)%nat.
Definition is_digit (c : ascii) : bool :=
  (48 <=? nat_of_ascii c)%nat && (nat_of_ascii c <=? 57)%nat.

(** *** Numbers of the component state *)

(** A counter held in a [useState<number>]: an integer, or [NaN] when it
    came from a text that [parseInt] could not read. The counts are
    integers that a double holds exactly (below 2^53 in absolute
    value). *)
Inductive num :=
| Num (n : Z)
| NaN.

(** [x + 1] *)
Definition succ (x : num) : num :=
  match x with Num n => Num (n + 1) | NaN => NaN end.

(** [x >= limit]: a comparison with [NaN] is false. *)
Definition at_least (limit : Z) (x : num) : bool :=
  match x with Num n => (limit <=? n)%Z | NaN => false end.

(** [x.toString()] *)
Definition num_toString (x : num) : string :=
  match x with Num n => pretty n | NaN => "NaN" end.

(** *** What the engine provides *)

(** A string is the sequence of the bytes of its text. The functions of
    the engine that go by the Unicode properties of the characters are
    left open: [s.toLowerCase()], [s.trim()] and [parseInt(s, 10)]. What
    is proved about the client holds for every such engine. *)
Class Engine := {
  toLowerCase : string -> string;
  trim : string -> string;
  parseInt : string -> num
}.

(** *** An engine for texts in the ASCII range *)

(** It agrees with the engine of a browser on the texts whose characters
    are all ASCII; the sample runs use it on such texts only. *)

Fixpoint ascii_toLowerCase (s : string) : string :=
  match s with
  | EmptyString => ""
  | String c t =>
      String (if is_upper c then ascii_of_nat (nat_of_ascii c + 32) else c)
             (ascii_toLowerCase t)
  end.

(** The value of the longest prefix of decimal digits; [None] when the
    text starts with no digit. *)
Fixpoint digits (acc : option Z) (s : string) : option Z :=
  match s with
  | EmptyString => acc
  | String c t =>
      if is_digit c
      then digits (Some (10 * default 0%Z acc + Z.of_nat (nat_of_ascii c - 48))%Z) t
      else acc
  end.

(** [parseInt(s, 10)]: leading white space, an optional sign, then the
    digits; anything after them is ignored. *)
Definition ascii_parseInt (s : string) : num :=
  let read (sign : Z) (t : string) :=
    match digits None t with
    | Some n => Num (sign * n)
    | None => NaN
    end in
  match stripStart is_space s with
  | String "-" t => read (-1)%Z t
  | String "+" t => read 1%Z t
  | t => read 1%Z t
  end.

Definition ascii_engine : Engine :=
  {| toLowerCase := ascii_toLowerCase;
     trim := strip is_space;
     parseInt := ascii_parseInt |}.

Definition hex_digit (n : nat) : ascii :=
  ascii_of_nat (if (n <? 10)%nat then 48 + n else 55 + n).

Definition percent (c : ascii) : string :=
  String "%" (String (hex_digit (nat_of_ascii c / 16))
                     (String (hex_digit (nat_of_ascii c mod 16)) "")).

Definition mem_ascii (c : ascii) (s : string) : bool :=
  includes s (String c "").

(** [encodeURIComponent]: every byte outside the unreserved set is
    percent-encoded. *)
Fixpoint encodeURIComponent (s : string) : string :=
  match s with
  | EmptyString => ""
  | String c t =>
      (if is_upper c || is_lower c || is_digit c || mem_ascii c "-_.!~*'()"
       then String c "" else percent c) +:+ encodeURIComponent t
  end.

(** The serializer of [URLSearchParams]: form encoding of one component. *)
Fixpoint formEncode (s : string) : string :=
  match s with
  | EmptyString => ""
  | String c t =>
      (if is_upper c || is_lower c || is_digit c || mem_ascii c "*-._"
       then String c ""
       else if Ascii.eqb c " " then "+" else percent c) +:+ formEncode t
  end.

(** [s.endsWith(suffix)] *)
Fixpoint ends_with (s suffix : string) : bool :=
  String.eqb s suffix ||
  match s with
  | EmptyString => false
  | String _ t => ends_with t suffix
  end.

End Js.
Import Js.

(* ===================================================================== *)
(** ** Effects: state passing with exceptions *)
(* ===================================================================== *)
Module Eff.

(** How an awaited call settles: fulfilled with a value or rejected. *)
Inductive Res (A : Type) :=
| Ok (a : A)
| Throw (e : exn).
Arguments Ok {A} a.
Arguments Throw {A} e.

Definition M (S A : Type) : Type := S -> Res A * S.

Definition ret {S A} (a : A) : M S A := fun s => (Ok a, s).

Definition bind {S A B} (m : M S A) (k : A -> M S B) : M S B :=
  fun s => match m s with
           | (Ok a, s') => k a s'
           | (Throw e, s') => (Throw e, s')
           end.

Definition throw {S A} (e : exn) : M S A := fun s => (Throw e, s).

Definition get {S} : M S S := fun s => (Ok s, s).
Definition modify {S} (f : S -> S) : M S unit := fun s => (Ok tt, f s).

(** [try { m } catch (e) { h e }] *)
Definition try_catch {S A} (m : M S A) (h : exn -> M S A) : M S A :=
  fun s => match m s with
           | (Ok a, s') => (Ok a, s')
           | (Throw e, s') => h e s'
           end.

(** [try { m } finally { f }] *)
Definition try_finally {S A} (m : M S A) (f : M S unit) : M S A :=
  fun s => match m s with
           | (r, s') => match f s' with
                        | (Ok _, s'') => (r, s'')
                        | (Throw e, s'') => (Throw e, s'')
                        end
           end.

(** A call that is not awaited: whatever it does or throws, the caller
    goes on. *)
Definition detached {S A} (m : M S A) : M S unit :=
  fun s => (Ok tt, snd (m s)).


#[global] Instance M_ret {S} : MRet (M S) := fun A => @ret S A.
#[global] Instance M_bind {S} : MBind (M S) := fun A B k m => @bind S A B m k.

End Eff.
Import Eff.

(* ===================================================================== *)
(** ** What surrounds the client at run time *)
(* ===================================================================== *)
Module Runtime.

(** One call of [fetch(url, config)]. [body] is the value handed to
    [JSON.stringify]. *)
Record Request := {
  url : string;
  method : option string;
  headers : list (string * string);
  body : option value
}.

(** The parts of a [Response] that [request] reads. [jsonBody] is what
    [response.json()] resolves to; [None] when the body is not JSON and
    the call rejects with a SyntaxError. *)
Record Response := {
  status : Z;
  statusText : string;
  contentType : option string;
  jsonBody : option value
}.

(** [response.ok] *)
Definition ok (r : Response) : bool :=
  (200 <=? status r)%Z && (status r <=? 299)%Z.

Inductive FetchOutcome :=
| Resolved (r : Response)
| Rejected (e : exn).

(** How the network answers a request: after [latency] milliseconds the
    request settles with [outcome]. *)
Record Reply := { latency : N; outcome : FetchOutcome }.

(** An entry of [wordCache]: [{ data, timestamp }]. *)
Record CacheEntry := { data : value; timestamp : N }.

(** What a component does to its surroundings: a toast or a call of one
    of the callbacks it got as props. Console output is left out. *)
Inductive Effect :=
| ShowToast (message variant : string)
| OnComplete
| OnClose
| OnLoginRequired.

(** Session history: the entries behind the current one (nearest first),
    the current path and the entries ahead. *)
Record History := {
  behind : list string;
  pathname : string;
  ahead : list string
}.

(** The state outside the running component.
    - [cookies]: the cookies of path [/] that [document.cookie] shows,
      in order; these are the only ones the client writes;
    - [wordCache], [baseURL]: module and instance state of [api.ts];
    - [now]: the reading of [Date.now()], milliseconds since the epoch;
    - [server]: the reply to the last request of a log of requests;
    - [sent]: the requests issued so far. *)
Record World := {
  baseURL : string;
  cookies : list (string * string);
  wordCache : gmap string CacheEntry;
  localStorage : gmap string string;
  history : History;
  now : N;
  server : list Request -> Reply;
  sent : list Request;
  effects : list Effect
}.

Definition with_cookies (c : list (string * string)) (w : World) : World :=
  {| baseURL := baseURL w; cookies := c; wordCache := wordCache w;
     localStorage := localStorage w; history := history w; now := now w;
     server := server w; sent := sent w; effects := effects w |}.

Definition with_wordCache (c : gmap string CacheEntry) (w : World) : World :=
  {| baseURL := baseURL w; cookies := cookies w; wordCache := c;
     localStorage := localStorage w; history := history w; now := now w;
     server := server w; sent := sent w; effects := effects w |}.

Definition with_localStorage (l : gmap string string) (w : World) : World :=
  {| baseURL := baseURL w; cookies := cookies w; wordCache := wordCache w;
     localStorage := l; history := history w; now := now w;
     server := server w; sent := sent w; effects := effects w |}.

Definition with_history (h : History) (w : World) : World :=
  {| baseURL := baseURL w; cookies := cookies w; wordCache := wordCache w;
     localStorage := localStorage w; history := h; now := now w;
     server := server w; sent := sent w; effects := effects w |}.

Definition with_effects (e : list Effect) (w : World) : World :=
  {| baseURL := baseURL w; cookies := cookies w; wordCache := wordCache w;
     localStorage := localStorage w; history := history w; now := now w;
     server := server w; sent := sent w; effects := e |}.

(** The request joins the log and the clock moves by the reply's latency. *)
Definition with_request (r : Request) (w : World) : World :=
  {| baseURL := baseURL w; cookies := cookies w; wordCache := wordCache w;
     localStorage := localStorage w; history := history w;
     now := (now w + latency (server w (sent w ++ [r])))%N;
     server := server w; sent := sent w ++ [r]; effects := effects w |}.

(** *** The cookie jar *)

(** The getter of [document.cookie]. *)
Definition document_cookie (jar : list (string * string)) : string :=
  join "; " (map (fun c => fst c +:+ "=" +:+ snd c) jar).

Fixpoint jar_put (name val : string) (jar : list (string * string))
  : list (string * string) :=
  match jar with
  | [] => [(name, val)]
  | (n, v) :: rest =>
      if String.eqb n name then (name, val) :: rest
      else (n, v) :: jar_put name val rest
  end.

Definition jar_remove (name : string) (jar : list (string * string))
  : list (string * string) :=
  List.filter (fun c => negb (String.eqb (fst c) name)) jar.

(** What a browser keeps in its jar: a cookie name has no [;] and no
    [=], a cookie value has no [;]. *)
Definition cookie_wf (c : string * string) : bool :=
  negb (mem_ascii ";" (fst c)) && negb (mem_ascii "=" (fst c))
  && negb (mem_ascii ";" (snd c)).

Definition jar_wf (jar : list (string * string)) : bool :=
  forallb cookie_wf jar.

(** What follows the first cookie in the text of [document.cookie]. *)
Definition jar_tail (jar : list (string * string)) : string :=
  match jar with
  | [] => ""
  | _ => "; " +:+ document_cookie jar
  end.

(** The two lifetime attributes the client writes: [max-age] in seconds,
    [expires] as a date in milliseconds since the epoch. *)
Inductive Lifetime :=
| MaxAge (seconds : Z)
| Expires (date : N).

Definition expired (l : Lifetime) (t : N) : bool :=
  match l with
  | MaxAge s => (s <=? 0)%Z
  | Expires d => (d <=? t)%N
  end.

(** The setter of [document.cookie] for a string
    [name=val; path=/; <lifetime>]: the value ends at the first [;] and
    loses the blanks around it, and an assignment whose lifetime is over
    removes the cookie. *)
Definition assign_cookie (name val : string) (l : Lifetime) (w : World)
  : World :=
  if expired l (now w)
  then with_cookies (jar_remove name (cookies w)) w
  else with_cookies
         (jar_put name (strip is_space (hd "" (split val ";"))) (cookies w)) w.

(** *** Session history *)

(** [history.pushState(null, "", path)] *)
Definition push_entry (path : string) (h : History) : History :=
  {| behind := pathname h :: behind h; pathname := path; ahead := [] |}.

(** One step back; [None] when there is no entry behind. *)
Definition step_back (h : History) : option History :=
  match behind h with
  | [] => None
  | p :: rest =>
      Some {| behind := rest; pathname := p; ahead := pathname h :: ahead h |}
  end.

(** One step forward. *)
Definition step_forward (h : History) : option History :=
  match ahead h with
  | [] => None
  | p :: rest =>
      Some {| behind := pathname h :: behind h; pathname := p; ahead := rest |}
  end.

(** *** Components *)

(** A mounted component: the world, its state [ui] and the states it has
    rendered while a request was in flight ([frames], oldest first). *)
Record Env (U : Type) := {
  world : World;
  ui : U;
  frames : list U
}.
Arguments world {U} e.
Arguments ui {U} e.
Arguments frames {U} e.

(** [await apiService.f(...)]: the component renders its current state
    and the call runs on the world. *)
Definition await {U A} (m : M World A) : M (Env U) A :=
  fun e => match m (world e) with
           | (r, w') =>
               (r, {| world := w'; ui := ui e; frames := frames e ++ [ui e] |})
           end.

(** A state setter [setX(v)], given as the update of the state record. *)
Definition set_state {U} (f : U -> U) : M (Env U) unit :=
  modify (fun e => {| world := world e; ui := f (ui e); frames := frames e |}).

Definition on_world {U} (f : World -> World) : M (Env U) unit :=
  modify (fun e => {| world := f (world e); ui := ui e; frames := frames e |}).

Definition emit {U} (x : Effect) : M (Env U) unit :=
  on_world (fun w => with_effects (effects w ++ [x]) w).

(** [v.p]: reading a property of [undefined] or [null] throws a
    TypeError; arrays and strings have a [length]. *)
Definition prop (v : value) (p : string) : Res value :=
  match v with
  | VUndefined =>
      Throw (Error ("Cannot read properties of undefined (reading '" +:+ p +:+ "')"))
  | VNull =>
      Throw (Error ("Cannot read properties of null (reading '" +:+ p +:+ "')"))
  | VObj fs => Ok (assoc p fs)
  | VArr items =>
      Ok (if String.eqb p "length" then VNum (Z.of_nat (length items))
          else VUndefined)
  | VStr s =>
      Ok (if String.eqb p "length" then VNum (Z.of_nat (String.length s))
          else VUndefined)
  | VBool _ | VNum _ => Ok VUndefined
  end.

(** [v[i]] for a number [i]; the client indexes arrays only. *)
Definition item (v : value) (i : Z) : Res value :=
  match v with
  | VUndefined => Throw (Error "Cannot read properties of undefined")
  | VNull => Throw (Error "Cannot read properties of null")
  | VArr items =>
      Ok (if (i <? 0)%Z then VUndefined
          else nth (Z.to_nat i) items VUndefined)
  | _ => Ok VUndefined
  end.

Definition get_prop {S} (v : value) (p : string) : M S value :=
  fun s => (prop v p, s).

Definition get_index {S} (v : value) (i : Z) : M S value :=
  fun s => (item v i, s).

(** The value the jar holds for a cookie name. *)
Fixpoint jar_lookup (name : string) (jar : list (string * string))
  : option string :=
  match jar with
  | [] => None
  | (n, v) :: rest => if String.eqb n name then Some v else jar_lookup name rest
  end.

(** [x] put in front of the first part of a split text. *)
Definition prepend (x : string) (parts : list string) : list string :=
  match parts with
  | p :: ps => (x +:+ p) :: ps
  | [] => [x]
  end.

End Runtime.
Import Runtime.

(* ===================================================================== *)
(** ** [src/lib/api.ts] *)
(* ===================================================================== *)
Module Api.

Definition COOKIE_NAME : string := "auth_token".
Definition COOKIE_MAX_AGE : Z := 60 * 60 * 24 * 7.
Definition CACHE_DURATION : Z := 1000 * 60 * 30.

Definition AUTH_REQUIRED : string := "Authentication required".
Definition QUOTA_EXCEEDED : string := "AI_SERVICE_QUOTA_EXCEEDED".

(** The second argument of [request]. *)
Record RequestInit := {
  o_method : option string;
  o_headers : option (list (string * string));
  o_body : option value
}.

Definition no_options : RequestInit :=
  {| o_method := None; o_headers := None; o_body := None |}.

Definition post (b : value) : RequestInit :=
  {| o_method := Some "POST"; o_headers := None; o_body := Some b |}.

(** *** Cookie management *)

Definition setCookie (name val : string) (maxAge : Z) : M World unit :=
  modify (assign_cookie name val (MaxAge maxAge)).

(** The body of [getCookie] on the jar that [document.cookie] reads. *)
Definition read_cookie (name : string) (jar : list (string * string))
  : option string :=
  let value := "; " +:+ document_cookie jar in
  let parts := split value ("; " +:+ name +:+ "=") in
  if (length parts =? 2)%nat
  then match last parts with
       | Some p =>
           match split p ";" with
           | x :: _ => if String.eqb x "" then None else Some x
           | [] => None
           end
       | None => None
       end
  else None.

Definition getCookie (name : string) : M World (option string) :=
  w ← get; mret (read_cookie name (cookies w)).

(** The date written is [Thu, 01 Jan 1970 00:00:00 GMT], time 0. *)
Definition deleteCookie (name : string) : M World unit :=
  modify (assign_cookie name "" (Expires 0)).

(** *** Token management *)

Definition setToken (token : string) : M World unit :=
  setCookie COOKIE_NAME token COOKIE_MAX_AGE.

Definition getToken : M World (option string) := getCookie COOKIE_NAME.

Definition removeToken : M World unit := deleteCookie COOKIE_NAME.

Definition isAuthenticated : M World bool :=
  t ← getToken; mret (bool_decide (t ≠ None)).

(** *** The HTTP request helper *)

Definition fetch (r : Request) : M World Response :=
  fun w =>
    match outcome (server w (sent w ++ [r])) with
    | Resolved resp => (Ok resp, with_request r w)
    | Rejected e => (Throw e, with_request r w)
    end.

(** [await response.json()] *)
Definition json (r : Response) : M World value :=
  match jsonBody r with
  | Some v => mret v
  | None => throw (Error "Unexpected token in JSON")
  end.

(** The headers of [config]: the spread of [options] comes last, so a
    [headers] field of [options] replaces the merged ones. *)
Definition config_headers (token : option string) (options : RequestInit)
  : list (string * string) :=
  match o_headers options with
  | Some h => h
  | None =>
      ("Content-Type", "application/json") ::
      match token with
      | Some t => [("Authorization", "Bearer " +:+ t)]
      | None => []
      end
  end.

Definition http_status (r : Response) : string :=
  "HTTP " +:+ pretty (status r).

(** The body of the inner [try]: parse the error response and throw its
    [error] field, or the status when there is none. *)
Definition throw_parsed (response : Response) : M World value :=
  errorData ← json response;
  err ← get_prop errorData "error";
  throw (Error (ToString (or_else err (VStr (http_status response))))).

(** [url] and [config] as one record. *)
Definition build (base endpoint : string) (token : option string)
    (options : RequestInit) : Request :=
  {| url := base +:+ endpoint; method := o_method options;
     headers := config_headers token options; body := o_body options |}.

(** The request that a call of [request] in world [w] hands to [fetch],
    and the network's reply to it. *)
Definition sends (w : World) (endpoint : string) (options : RequestInit)
  : Request :=
  build (baseURL w) endpoint (read_cookie COOKIE_NAME (cookies w)) options.

Definition reply (w : World) (endpoint : string) (options : RequestInit)
  : Reply :=
  server w (sent w ++ [sends w endpoint options]).

Definition request (endpoint : string) (options : RequestInit)
  : M World value :=
  w ← get;
  token ← getToken;
  let config := build (baseURL w) endpoint token options in
  try_catch
    (response ← fetch config;
     if negb (ok response) then
       (if (status response =? 401)%Z
        then removeToken;; throw (Error AUTH_REQUIRED)
        else mret tt);;
       (if (status response =? 429)%Z
        then throw (Error QUOTA_EXCEEDED)
        else mret tt);;
       (* Try to parse error response *)
       try_catch
         (throw_parsed response)
         (fun _ =>
            throw (Error (http_status response +:+ ": " +:+ statusText response)))
     else
       match contentType response with
       | Some ct =>
           if negb (String.eqb ct "") && includes ct "application/json"
           then json response
           else mret (VObj [])
       | None => mret (VObj [])
       end)
    (fun error =>
       match error with
       | Error _ => throw error
       | Thrown _ => throw (Error "Network error")
       end).

(** What a 2xx response resolves to: the branch on the content type at
    the end of [request]. *)
Definition payload (resp : Response) : Res value :=
  match contentType resp with
  | Some ct =>
      if negb (String.eqb ct "") && includes ct "application/json"
      then match jsonBody resp with
           | Some v => Ok v
           | None => Throw (Error "Unexpected token in JSON")
           end
      else Ok (VObj [])
  | None => Ok (VObj [])
  end.

(** *** Words *)

Definition meanings_endpoint (word : string) : string :=
  "/words/meanings/" +:+ encodeURIComponent word.

Definition enhanced_endpoint (word : string) : string :=
  "/words/enhanced/" +:+ encodeURIComponent word.

Definition getWordMeanings (word : string) : M World value :=
  request (meanings_endpoint word) no_options.

Definition cacheKey `{Engine} (word : string) : string :=
  "enhanced_" +:+ toLowerCase word.

(** The entry when [cached && Date.now() - cached.timestamp <
    CACHE_DURATION] holds at time [t]. *)
Definition fresh (cached : option CacheEntry) (t : N) : option CacheEntry :=
  match cached with
  | Some c =>
      if (Z.of_N t - Z.of_N (timestamp c) <? CACHE_DURATION)%Z then Some c
      else None
  | None => None
  end.

Definition getEnhancedWordInfo `{Engine} (word : string) : M World value :=
  w ← get;
  let cached := wordCache w !! cacheKey word in
  match fresh cached (now w) with
  | Some c => mret (data c)
  | None =>
      try_catch
        (d ← request (enhanced_endpoint word) no_options;
         modify (fun w' =>
                   with_wordCache
                     (<[cacheKey word := {| data := d; timestamp := now w' |}]>
                        (wordCache w')) w');;
         mret d)
        (fun error =>
           (* If quota exceeded, check if we have cached data *)
           match error, cached with
           | Error m, Some c =>
               if String.eqb m QUOTA_EXCEEDED then mret (data c)
               else throw error
           | _, _ => throw error
           end)
  end.

Definition generateLearningCard (word meaning : string) : M World value :=
  request "/words/generate-learning-card"
          (post (VObj [("word", VStr word); ("meaning", VStr meaning)])).

(** *** Spaced repetition *)

Definition opt_str (o : option string) : value :=
  match o with Some s => VStr s | None => VUndefined end.

(** [collectionId] and [collectionIds] are optional; an empty string or
    an empty array counts as absent. *)
Definition getCardsForReview (collectionId : option string)
    (collectionIds : option (list string)) : M World value :=
  let params :=
    match collectionIds with
    | Some (i :: ids) => [("collectionIds", join "," (i :: ids))]
    | _ =>
        match collectionId with
        | Some c => if String.eqb c "" then [] else [("collectionId", c)]
        | None => []
        end
    end in
  let queryString :=
    join "&" (map (fun kv => formEncode (fst kv) +:+ "=" +:+ formEncode (snd kv))
                  params) in
  let url := if String.eqb queryString "" then "/users/review/due"
             else "/users/review/due" +:+ "?" +:+ queryString in
  request url no_options.

(** [rating] is one of 1, 2, 3, 4; the optional arguments are the ones
    [ReviewSession] leaves out. *)
Definition recordCardReview (collectionId cardId : value) (rating : Z)
  : M World value :=
  request "/users/review/record"
          (post (VObj [("collectionId", collectionId); ("cardId", cardId);
                       ("rating", VNum rating); ("confidence", VUndefined);
                       ("questionType", VUndefined); ("timeSpent", VUndefined);
                       ("pronunciationScore", VUndefined)])).

(** *** User *)

Definition logout : M World unit := removeToken.

Definition getProfile : M World value := request "/users/profile" no_options.

Definition learnWord (word meaning : string) : M World value :=
  request "/users/learn-word"
          (post (VObj [("word", VStr word); ("meaning", VStr meaning);
                       ("difficulty", VUndefined)])).

(** *** Authentication *)

(** [data] is the credentials record handed to [JSON.stringify]; the
    token, if the response has a truthy one, goes into the cookie text
    through a template literal. *)
Definition register (data : value) : M World value :=
  response ← request "/users/register" (post data);
  token ← get_prop response "token";
  (* Store token on successful registration *)
  (if truthy token then setToken (ToString token) else mret tt);;
  mret response.

Definition login (data : value) : M World value :=
  response ← request "/users/login" (post data);
  token ← get_prop response "token";
  (* Store token on successful login *)
  (if truthy token then setToken (ToString token) else mret tt);;
  mret response.

(** *** Configuration *)

(** The variables of [import.meta.env] that [getApiBaseUrl] reads. *)
Record Environment := {
  VITE_API_URL : option string;
  VITE_API_BASE_URL : option string;
  PROD : bool;
  VITE_ENV : option string
}.

(** [a || b] for two optional strings; [None] when both are falsy. *)
Definition either (a b : option string) : option string :=
  match a with
  | Some x => if String.eqb x "" then
                match b with
                | Some y => if String.eqb y "" then None else Some y
                | None => None
                end
              else Some x
  | None => match b with
            | Some y => if String.eqb y "" then None else Some y
            | None => None
            end
  end.

Definition getApiBaseUrl (env : Environment) : string :=
  match either (VITE_API_URL env) (VITE_API_BASE_URL env) with
  | Some envApiUrl =>
      (* Ensure the URL ends with /api *)
      if ends_with envApiUrl "/api" then envApiUrl else envApiUrl +:+ "/api"
  | None =>
      if PROD env then "https://your-backend-on-render.onrender.com/api"
      else if bool_decide (VITE_ENV env = Some "staging")
           then "https://api-staging.yourdomain.com/api"
           else "/api"
  end.

Definition with_baseURL (b : string) (w : World) : World :=
  {| baseURL := b; cookies := cookies w; wordCache := wordCache w;
     localStorage := localStorage w; history := history w; now := now w;
     server := server w; sent := sent w; effects := effects w |}.

Definition setApiBaseUrl (url : string) : M World unit :=
  modify (with_baseURL (if ends_with url "/api" then url else url +:+ "/api")).

(** A network that answers every request with a 2xx response whose
    payload can be read. *)
Definition accepts_all (srv : list Request -> Reply) : Prop :=
  forall log, exists resp v,
    outcome (srv log) = Resolved resp /\ ok resp = true /\ payload resp = Ok v.

(** *** Several lookups in a row *)

(** The words are looked up one after the other, whatever each lookup
    returns. *)
Fixpoint lookups `{Engine} (words : list string) : M World unit :=
  match words with
  | [] => mret tt
  | word :: rest => detached (getEnhancedWordInfo word);; lookups rest
  end.

End Api.

(** An event reaches the handler created by the latest render: the state
    variables the handler mentions are the ones of that render, also
    after setters have run. *)
Definition dispatch {U A} (handler : U -> M (Env U) A) : M (Env U) A :=
  fun e => handler (ui e) e.

(** [i >= v] and [i < v - 1] for a number [i]: a comparison with
    [undefined] is false. *)
Definition num_ge (i : Z) (v : value) : bool :=
  match v with VNum n => (n <=? i)%Z | _ => false end.
Definition num_lt_pred (i : Z) (v : value) : bool :=
  match v with VNum n => (i <? n - 1)%Z | _ => false end.
(** [v === 0] *)
Definition is_zero (v : value) : bool :=
  match v with VNum n => (n =? 0)%Z | _ => false end.

(* ===================================================================== *)
(** ** The word-input screen *)
(* ===================================================================== *)
Module WordInput.

Definition GUEST_API_LIMIT : Z := 3.
Definition GUEST_API_COUNT_KEY : string := "guest_api_count".
Definition ENTER_A_WORD : string := "Please enter a word".
Definition NOT_FOUND : string := "Word not found. Please try another word.".

(** The props that are data; a call of [onLoginRequired] is an
    [Effect]. The counter [guestApiCount] holds what the mount effect
    read from local storage and what [incrementGuestApiCount] mirrors
    into it. *)
Record Props := { isAuthenticated : bool }.

Record State := {
  word : string;
  loading : bool;
  error : string;
  wordData : value;
  selectedMeaning : string;
  customMeaning : string;
  useCustomMeaning : bool;
  guestApiCount : num
}.

Definition setLoading (b : bool) : M (Env State) unit :=
  set_state (fun s =>
    {| word := word s; loading := b; error := error s; wordData := wordData s;
       selectedMeaning := selectedMeaning s; customMeaning := customMeaning s;
       useCustomMeaning := useCustomMeaning s; guestApiCount := guestApiCount s |}).

Definition setError (m : string) : M (Env State) unit :=
  set_state (fun s =>
    {| word := word s; loading := loading s; error := m; wordData := wordData s;
       selectedMeaning := selectedMeaning s; customMeaning := customMeaning s;
       useCustomMeaning := useCustomMeaning s; guestApiCount := guestApiCount s |}).

Definition setWordData (d : value) : M (Env State) unit :=
  set_state (fun s =>
    {| word := word s; loading := loading s; error := error s; wordData := d;
       selectedMeaning := selectedMeaning s; customMeaning := customMeaning s;
       useCustomMeaning := useCustomMeaning s; guestApiCount := guestApiCount s |}).

Definition setSelectedMeaning (m : string) : M (Env State) unit :=
  set_state (fun s =>
    {| word := word s; loading := loading s; error := error s;
       wordData := wordData s; selectedMeaning := m;
       customMeaning := customMeaning s;
       useCustomMeaning := useCustomMeaning s; guestApiCount := guestApiCount s |}).

Definition setCustomMeaning (m : string) : M (Env State) unit :=
  set_state (fun s =>
    {| word := word s; loading := loading s; error := error s;
       wordData := wordData s; selectedMeaning := selectedMeaning s;
       customMeaning := m;
       useCustomMeaning := useCustomMeaning s; guestApiCount := guestApiCount s |}).

Definition setUseCustomMeaning (b : bool) : M (Env State) unit :=
  set_state (fun s =>
    {| word := word s; loading := loading s; error := error s;
       wordData := wordData s; selectedMeaning := selectedMeaning s;
       customMeaning := customMeaning s;
       useCustomMeaning := b; guestApiCount := guestApiCount s |}).

Definition setGuestApiCount (n : num) : M (Env State) unit :=
  set_state (fun s =>
    {| word := word s; loading := loading s; error := error s;
       wordData := wordData s; selectedMeaning := selectedMeaning s;
       customMeaning := customMeaning s;
       useCustomMeaning := useCustomMeaning s; guestApiCount := n |}).

(** The state of [useState] at the first render. *)
Definition initial : State :=
  {| word := ""; loading := false; error := ""; wordData := VNull;
     selectedMeaning := ""; customMeaning := ""; useCustomMeaning := false;
     guestApiCount := Num 0 |}.

(** The effect that runs once after the first render: a stored count
    that is not the empty string replaces the counter. *)
Definition mount `{Engine} : M (Env State) unit :=
  e ← get;
  match localStorage (world e) !! GUEST_API_COUNT_KEY with
  | Some storedCount =>
      if negb (String.eqb storedCount "")
      then setGuestApiCount (parseInt storedCount)
      else mret tt
  | None => mret tt
  end.

(** [c] is the state of the render the handler belongs to. *)
Definition incrementGuestApiCount (c : State) : M (Env State) unit :=
  let newCount := succ (guestApiCount c) in
  setGuestApiCount newCount;;
  on_world (fun w =>
    with_localStorage
      (<[GUEST_API_COUNT_KEY := num_toString newCount]> (localStorage w)) w).

Definition handleSubmit `{Engine} (p : Props) (c : State) : M (Env State) unit :=
  if String.eqb (trim (word c)) "" then
    setError ENTER_A_WORD
  else if negb (isAuthenticated p) && at_least GUEST_API_LIMIT (guestApiCount c) then
    (* Check guest API limit *)
    emit OnLoginRequired
  else
    setLoading true;;
    setError "";;
    setWordData VNull;;
    setSelectedMeaning "";;
    setCustomMeaning "";;
    setUseCustomMeaning false;;
    try_finally
      (try_catch
         (d ← await (Api.getEnhancedWordInfo (trim (word c)));
          setWordData d;;
          (* Increment guest API count only on success *)
          if negb (isAuthenticated p) then incrementGuestApiCount c
          else mret tt)
         (fun err =>
            let errorMessage :=
              match err with Error m => m | Thrown _ => "Unknown error" end in
            if String.eqb errorMessage Api.QUOTA_EXCEEDED then
              try_catch
                (basicData ← await (Api.getWordMeanings (trim (word c)));
                 w ← get_prop basicData "word";
                 ms ← get_prop basicData "meanings";
                 setWordData (VObj [("word", w); ("meanings", ms);
                                    ("phonetic", VStr "")]);;
                 if negb (isAuthenticated p) then incrementGuestApiCount c
                 else mret tt)
                (fun _ => setError NOT_FOUND)
            else setError NOT_FOUND))
      (setLoading false).

(** *** The other handlers of the screen *)

Definition setWord (t : string) : M (Env State) unit :=
  set_state (fun s =>
    {| word := t; loading := loading s; error := error s;
       wordData := wordData s; selectedMeaning := selectedMeaning s;
       customMeaning := customMeaning s;
       useCustomMeaning := useCustomMeaning s; guestApiCount := guestApiCount s |}).

(** [onChange] of the radio button of a listed meaning. *)
Definition chooseMeaning (definition : string) : M (Env State) unit :=
  setSelectedMeaning definition;;
  setUseCustomMeaning false.

(** [onChange] of the radio button "Use your own definition". *)
Definition chooseCustom : M (Env State) unit :=
  setUseCustomMeaning true;;
  setSelectedMeaning "".

Definition handleBackToSearch : M (Env State) unit :=
  setWordData VNull;;
  setSelectedMeaning "";;
  setCustomMeaning "";;
  setUseCustomMeaning false.

Definition CHOOSE_A_MEANING : string :=
  "Please select a meaning or enter your own.".

(** The arguments of a call of [onWordSubmit]. *)
Record Submission := {
  s_word : value;
  s_meanings : value;
  s_selected : string;
  s_custom : string;
  s_wordData : value
}.

(** [handleContinue] returns the call of [onWordSubmit] it makes, if it
    makes one. *)
Definition handleContinue `{Engine} (p : Props) (c : State)
  : M (Env State) (option Submission) :=
  if negb (truthy (wordData c)) then mret None
  else if negb (isAuthenticated p) then
    (* Check authentication before creating learning card *)
    emit OnLoginRequired;; mret None
  else
    let meaningToUse :=
      if useCustomMeaning c then trim (customMeaning c) else selectedMeaning c in
    if String.eqb meaningToUse "" then
      setError CHOOSE_A_MEANING;; mret None
    else
      w ← get_prop (wordData c) "word";
      ms ← get_prop (wordData c) "meanings";
      mret (Some {| s_word := w; s_meanings := ms;
                    s_selected := selectedMeaning c;
                    s_custom := customMeaning c;
                    s_wordData := wordData c |}).

(** What a user can do on the screen. *)
Inductive Action :=
| TypeWord (text : string)
| Submit
| ChooseMeaning (definition : string)
| ChooseCustom
| TypeCustom (text : string)
| BackToSearch
| Continue.

Definition perform `{Engine} (p : Props) (a : Action) : M (Env State) unit :=
  match a with
  | TypeWord text => setWord text
  | Submit => dispatch (handleSubmit p)
  | ChooseMeaning definition => chooseMeaning definition
  | ChooseCustom => chooseCustom
  | TypeCustom text => setCustomMeaning text
  | BackToSearch => handleBackToSearch
  | Continue => dispatch (handleContinue p);; mret tt
  end.

Fixpoint perform_all `{Engine} (p : Props) (actions : list Action)
  : M (Env State) unit :=
  match actions with
  | [] => mret tt
  | a :: rest => perform p a;; perform_all p rest
  end.

End WordInput.

(* ===================================================================== *)
(** ** The review session *)
(* ===================================================================== *)
Module ReviewSession.

Record Props := { collectionId : option string }.

Record State := {
  cards : value;
  currentIndex : Z;
  showAnswer : bool;
  loading : bool;
  reviewing : bool
}.

(** The state of [useState] at mount. *)
Definition initial : State :=
  {| cards := VArr []; currentIndex := 0; showAnswer := false;
     loading := true; reviewing := false |}.

Definition setCards (v : value) : M (Env State) unit :=
  set_state (fun s =>
    {| cards := v; currentIndex := currentIndex s; showAnswer := showAnswer s;
       loading := loading s; reviewing := reviewing s |}).

Definition setCurrentIndex (i : Z) : M (Env State) unit :=
  set_state (fun s =>
    {| cards := cards s; currentIndex := i; showAnswer := showAnswer s;
       loading := loading s; reviewing := reviewing s |}).

Definition setShowAnswer (b : bool) : M (Env State) unit :=
  set_state (fun s =>
    {| cards := cards s; currentIndex := currentIndex s; showAnswer := b;
       loading := loading s; reviewing := reviewing s |}).

Definition setLoading (b : bool) : M (Env State) unit :=
  set_state (fun s =>
    {| cards := cards s; currentIndex := currentIndex s;
       showAnswer := showAnswer s; loading := b; reviewing := reviewing s |}).

Definition setReviewing (b : bool) : M (Env State) unit :=
  set_state (fun s =>
    {| cards := cards s; currentIndex := currentIndex s;
       showAnswer := showAnswer s; loading := loading s; reviewing := b |}).

Definition NO_CARDS : string := "No cards due for review!".

Definition loadDueCards (p : Props) : M (Env State) unit :=
  setLoading true;;
  try_finally
    (try_catch
       (response ← await (Api.getCardsForReview (collectionId p) None);
        cs ← get_prop response "cards";
        setCards cs;;
        n ← get_prop cs "length";
        if is_zero n then
          emit (ShowToast NO_CARDS "success");;
          emit OnComplete
        else mret tt)
       (fun _ =>
          emit (ShowToast "Failed to load review cards" "error");;
          emit OnClose))
    (setLoading false).

(** [ReviewRating = 1 | 2 | 3 | 4] *)
Inductive ReviewRating := Again | Hard | Good | Easy.

Definition rating_number (r : ReviewRating) : Z :=
  match r with Again => 1 | Hard => 2 | Good => 3 | Easy => 4 end.

Definition SESSION_COMPLETE (n : value) : string :=
  "Review session complete! " +:+ ToString n +:+ " cards reviewed".

Definition handleRating (rating : ReviewRating) (c : State)
  : M (Env State) unit :=
  if reviewing c then mret tt
  else
    n ← get_prop (cards c) "length";
    if num_ge (currentIndex c) n then mret tt
    else
      currentCard ← get_index (cards c) (currentIndex c);
      setReviewing true;;
      try_finally
        (try_catch
           (cid ← get_prop currentCard "collectionId";
            id ← get_prop currentCard "id";
            await (Api.recordCardReview cid id (rating_number rating));;
            (* Move to next card *)
            if num_lt_pred (currentIndex c) n then
              setCurrentIndex (currentIndex c + 1);;
              setShowAnswer false
            else
              (* Session complete *)
              emit (ShowToast (SESSION_COMPLETE n) "success");;
              emit OnComplete)
           (fun _ => emit (ShowToast "Failed to record review" "error")))
        (setReviewing false).

Definition handleShowAnswer : M (Env State) unit := setShowAnswer true.

(** What the component returns: the loading card, nothing, or the
    flashcard of the current card with its position. *)
Inductive View :=
| LoadingCard
| Nothing
| Flashcard (position total : value) (card : value).

Definition render (s : State) : M unit View :=
  if loading s then mret LoadingCard
  else
    n ← get_prop (cards s) "length";
    if is_zero n then mret Nothing
    else
      currentCard ← get_index (cards s) (currentIndex s);
      _ ← get_prop currentCard "imageUrl";
      mret (Flashcard (VNum (currentIndex s + 1)) n currentCard).

(** The ratings are submitted one after the other, each to the handler
    of the latest render. *)
Fixpoint rate_each (ratings : list ReviewRating) : M (Env State) unit :=
  match ratings with
  | [] => mret tt
  | r :: rest => dispatch (handleRating r);; rate_each rest
  end.

(** A card whose properties can be read: anything but [undefined] and
    [null]. *)
Definition readable (card : value) : Prop :=
  card <> VUndefined /\ card <> VNull.

End ReviewSession.

(* ===================================================================== *)
(** ** The root controller *)
(* ===================================================================== *)
Module App.

(** ["learn" | "collections" | "learning"] *)
Inductive ViewName := learn | collections | learning.

(** The state variables of [App]; [authLoading], which only the login
    and register handlers touch, is left out. *)
Record State := {
  view : ViewName;
  step : Z;
  word : string;
  meanings : value;
  learningCard : value;
  loading : bool;
  isAuthenticated : bool;
  user : value;
  showAuth : bool
}.

Definition setView (v : ViewName) : M (Env State) unit :=
  set_state (fun s =>
    {| view := v; step := step s; word := word s; meanings := meanings s;
       learningCard := learningCard s; loading := loading s;
       isAuthenticated := isAuthenticated s; user := user s;
       showAuth := showAuth s |}).

Definition setStep (n : Z) : M (Env State) unit :=
  set_state (fun s =>
    {| view := view s; step := n; word := word s; meanings := meanings s;
       learningCard := learningCard s; loading := loading s;
       isAuthenticated := isAuthenticated s; user := user s;
       showAuth := showAuth s |}).

Definition setWord (x : string) : M (Env State) unit :=
  set_state (fun s =>
    {| view := view s; step := step s; word := x; meanings := meanings s;
       learningCard := learningCard s; loading := loading s;
       isAuthenticated := isAuthenticated s; user := user s;
       showAuth := showAuth s |}).

Definition setMeanings (m : value) : M (Env State) unit :=
  set_state (fun s =>
    {| view := view s; step := step s; word := word s; meanings := m;
       learningCard := learningCard s; loading := loading s;
       isAuthenticated := isAuthenticated s; user := user s;
       showAuth := showAuth s |}).

Definition setLearningCard (d : value) : M (Env State) unit :=
  set_state (fun s =>
    {| view := view s; step := step s; word := word s; meanings := meanings s;
       learningCard := d; loading := loading s;
       isAuthenticated := isAuthenticated s; user := user s;
       showAuth := showAuth s |}).

Definition setLoading (b : bool) : M (Env State) unit :=
  set_state (fun s =>
    {| view := view s; step := step s; word := word s; meanings := meanings s;
       learningCard := learningCard s; loading := b;
       isAuthenticated := isAuthenticated s; user := user s;
       showAuth := showAuth s |}).

Definition setUser (u : value) : M (Env State) unit :=
  set_state (fun s =>
    {| view := view s; step := step s; word := word s; meanings := meanings s;
       learningCard := learningCard s; loading := loading s;
       isAuthenticated := isAuthenticated s; user := u;
       showAuth := showAuth s |}).

Definition setShowAuth (b : bool) : M (Env State) unit :=
  set_state (fun s =>
    {| view := view s; step := step s; word := word s; meanings := meanings s;
       learningCard := learningCard s; loading := loading s;
       isAuthenticated := isAuthenticated s; user := user s;
       showAuth := b |}).

(** *** Views and URL paths *)

(** The branch on [window.location.pathname] of [getInitialView] and of
    [handlePopState]. *)
Definition view_of_path (path : string) : ViewName :=
  if String.eqb path "/collections" then collections
  else if String.eqb path "/learning" then learning
  else learn.

(** [nextPath] of [pushState]. *)
Definition nextPath (nextView : ViewName) : string :=
  match nextView with
  | collections => "/collections"
  | learning => "/learning"
  | learn => "/"
  end.

Definition getInitialView (w : World) : ViewName :=
  view_of_path (pathname (history w)).

Definition handlePopState : M (Env State) unit :=
  e ← get;
  let path := pathname (history (world e)) in
  if String.eqb path "/collections" then setView collections
  else if String.eqb path "/learning" then setView learning
  else setView learn.

Definition pushState (nextView : ViewName) : M (Env State) unit :=
  on_world (fun w => with_history (push_entry (nextPath nextView) (history w)) w).

Definition handleSwitchView (nextView : ViewName) : M (Env State) unit :=
  setView nextView;;
  pushState nextView.

(** The browser's back button: the session history moves one entry back
    and the [popstate] listener runs; with no entry behind, the document
    gets no event. *)
Definition browser_back : M (Env State) unit :=
  e ← get;
  match step_back (history (world e)) with
  | Some h => on_world (with_history h);; handlePopState
  | None => mret tt
  end.

Definition browser_forward : M (Env State) unit :=
  e ← get;
  match step_forward (history (world e)) with
  | Some h => on_world (with_history h);; handlePopState
  | None => mret tt
  end.

(** *** The learn flow *)

Definition GENERATE_FAILED : string :=
  "Failed to generate learning card. Please try again.".

Definition handleWordLearned (learnedWord learnedMeaning : string) (c : State)
  : M (Env State) unit :=
  if isAuthenticated c && truthy (user c) then
    try_catch
      (await (Api.learnWord learnedWord learnedMeaning);;
       userData ← await Api.getProfile;
       setUser userData)
      (fun _ => mret tt)
  else mret tt.

(** The call of [handleWordLearned] is not awaited: the handler runs to
    its end, [finally] included, before that call's continuation does, so
    the call is placed after the [finally] block. *)
Definition handleMeaningSelect (meaning : string) (overrideWord : option string)
    (c : State) : M (Env State) unit :=
  let targetWord := match overrideWord with Some o => o | None => word c end in
  setLoading true;;
  generated ←
    try_finally
      (try_catch
         (d ← await (Api.generateLearningCard targetWord meaning);
          setLearningCard d;;
          setStep 3;;
          mret true)
         (fun _ =>
            emit (ShowToast GENERATE_FAILED "error");;
            mret false))
      (setLoading false);
  if generated : bool then detached (handleWordLearned targetWord meaning c)
  else mret tt.

(** [selectedMeaning || customMeaning || ""] of two optional strings. *)
Definition first_truthy (a b : option string) : string :=
  match a with
  | Some x => if String.eqb x "" then
                match b with Some y => y | None => "" end
              else x
  | None => match b with Some y => y | None => "" end
  end.

Definition handleWordSubmit (searchWord : string) (fetchedMeanings : value)
    (selectedMeaning customMeaning : option string) (c : State)
  : M (Env State) unit :=
  setWord searchWord;;
  setMeanings fetchedMeanings;;
  if negb (String.eqb (first_truthy selectedMeaning customMeaning) "") then
    detached (handleMeaningSelect
                (first_truthy selectedMeaning customMeaning) (Some searchWord) c)
  else setStep 2.

Definition handleReset : M (Env State) unit :=
  setStep 1;;
  setWord "";;
  setMeanings (VArr []);;
  setLearningCard VNull.

Definition handleViewCollection (c : State) : M (Env State) unit :=
  if negb (isAuthenticated c) then
    emit (ShowToast "Sign in to view your collection" "error");;
    setShowAuth true
  else
    handleReset;;
    handleSwitchView collections.

Definition handleViewLearningCenter (c : State) : M (Env State) unit :=
  if negb (isAuthenticated c) then
    emit (ShowToast "Sign in to access the learning center" "error");;
    setShowAuth true
  else handleSwitchView learning.

Definition handleBackFromCollections : M (Env State) unit :=
  handleReset;;
  handleSwitchView learn.

Definition handleBackFromLearningCenter : M (Env State) unit :=
  handleSwitchView collections.

End App.

(* ===================================================================== *)
(** ** Sample runs *)
(* ===================================================================== *)
Module Samples.

Definition json_reply (code : Z) (text : string) (v : value) : Reply :=
  {| latency := 120;
     outcome := Resolved {| status := code; statusText := text;
                            contentType := Some "application/json; charset=utf-8";
                            jsonBody := Some v |} |}.

Definition hello : value :=
  VObj [("word", VStr "hello"); ("phonetic", VStr "/hə-lō/");
        ("meanings", VArr [VObj [("partOfSpeech", VStr "noun");
                                 ("definition", VStr "a greeting")]])].

Definition not_found : Reply :=
  json_reply 404 "Not Found" (VObj [("error", VStr "Word not found")]).
Definition unauthorized : Reply :=
  json_reply 401 "Unauthorized" (VObj [("error", VStr "Invalid token")]).
Definition too_many : Reply :=
  json_reply 429 "Too Many Requests" (VObj [("error", VStr "quota")]).

(** A signed-in browser at [/], at some time of day, whose network
    answers every request with [r]. *)
Definition browser (r : Reply) : World :=
  {| baseURL := "/api";
     cookies := [("theme", "dark"); ("auth_token", "abc.def.ghi")];
     wordCache := ∅;
     localStorage := ∅;
     history := {| behind := []; pathname := "/"; ahead := [] |};
     now := 1700000000000;
     server := fun _ => r;
     sent := [];
     effects := [] |}.

(** The same browser some milliseconds later. *)
Definition later (ms : N) (w : World) : World :=
  {| baseURL := baseURL w; cookies := cookies w; wordCache := wordCache w;
     localStorage := localStorage w; history := history w;
     now := (now w + ms)%N; server := server w; sent := sent w;
     effects := effects w |}.

(** A network that answers the first request with [r1] and every later
    one with [r2]. *)
Definition first_then (r1 r2 : Reply) (log : list Request) : Reply :=
  match log with
  | [_] => r1
  | _ => r2
  end.

Definition with_server (srv : list Request -> Reply) (w : World) : World :=
  {| baseURL := baseURL w; cookies := cookies w; wordCache := wordCache w;
     localStorage := localStorage w; history := history w;
     now := now w; server := srv; sent := sent w; effects := effects w |}.

(** A browser nobody has signed in from. *)
Definition guest_browser (srv : list Request -> Reply) : World :=
  {| baseURL := "/api";
     cookies := [("theme", "dark")];
     wordCache := ∅;
     localStorage := ∅;
     history := {| behind := []; pathname := "/"; ahead := [] |};
     now := 1700000000000;
     server := srv;
     sent := [];
     effects := [] |}.

Definition screen {U} (w : World) (s : U) : Env U :=
  {| world := w; ui := s; frames := [] |}.

(** A due card as the server sends it. *)
Definition card (id word : string) : value :=
  VObj [("id", VStr id); ("collectionId", VStr "col-1"); ("word", VStr word);
        ("meaning", VStr "..."); ("example", VStr "...");
        ("imageUrl", VStr ("https://img.example/" +:+ word));
        ("status", VStr "review")].

(** A review session showing card [i] of [items]. *)
Definition reviewing_card (items : list value) (i : Z) : ReviewSession.State :=
  {| ReviewSession.cards := VArr items; ReviewSession.currentIndex := i;
     ReviewSession.showAnswer := true; ReviewSession.loading := false;
     ReviewSession.reviewing := false |}.

Definition all_collections : ReviewSession.Props :=
  {| ReviewSession.collectionId := None |}.

(** The root controller of a signed-in user, on view [v] at step [n]. *)
Definition controller (v : App.ViewName) (n : Z) : App.State :=
  {| App.view := v; App.step := n; App.word := ""; App.meanings := VArr [];
     App.learningCard := VNull; App.loading := false;
     App.isAuthenticated := true;
     App.user := VObj [("id", VStr "u1"); ("username", VStr "ada")];
     App.showAuth := false |}.

Definition server_error : Reply :=
  json_reply 500 "Internal Server Error" (VObj [("error", VStr "AI down")]).

Definition guest : WordInput.Props := {| WordInput.isAuthenticated := false |}.

(** The search screen with [text] typed in and [count] lookups used. *)
Definition typed (text : string) (count : Z) : WordInput.State :=
  {| WordInput.word := text; WordInput.loading := false;
     WordInput.error := ""; WordInput.wordData := VNull;
     WordInput.selectedMeaning := ""; WordInput.customMeaning := "";
     WordInput.useCustomMeaning := false;
     WordInput.guestApiCount := Num count |}.

(** The browser with [count] as the stored number of guest lookups. *)
Definition with_stored_count (count : string) (w : World) : World :=
  with_localStorage
    (<[WordInput.GUEST_API_COUNT_KEY := count]> (localStorage w)) w.

End Samples.

(* ===================================================================== *)
(** * Properties *)
(* ===================================================================== *)

Ltac unfold_m :=
  unfold dispatch, emit, await, set_state, on_world, detached, try_finally,
    try_catch, get_prop, get_index, mbind, mret, M_bind, M_ret, bind, ret,
    throw, get, modify in *.

(** ** Strings *)
Section Strings.

Lemma str_app_nil (t : string) : "" +:+ t = t.
Proof. reflexivity. Qed.

Lemma str_app_cons (a : ascii) (s t : string) :
  String a s +:+ t = String a (s +:+ t).
Proof. reflexivity. Qed.

Lemma starts_with_app (p s : string) : starts_with p (p +:+ s) = true.
Proof.
  induction p as [|a p IH]; rewrite ?str_app_nil, ?str_app_cons; simpl; [done|].
  by rewrite Ascii.eqb_refl.
Qed.

Lemma mem_ascii_cons (c a : ascii) (s : string) :
  mem_ascii c (String a s) = Ascii.eqb c a || mem_ascii c s.
Proof.
  unfold mem_ascii. simpl. destruct (Ascii.eqb c a); [|done].
  by destruct s.
Qed.

Lemma mem_ascii_app (c : ascii) (s t : string) :
  mem_ascii c (s +:+ t) = mem_ascii c s || mem_ascii c t.
Proof.
  induction s as [|a s IH].
  - done.
  - change (String a s +:+ t) with (String a (s +:+ t)).
    rewrite !mem_ascii_cons, IH. by rewrite orb_assoc.
Qed.

(** A separator that begins with [c] cannot match inside a stretch of
    text without [c]. *)
Lemma includes_skip (c : ascii) (sep x rest : string) :
  mem_ascii c x = false ->
  includes (x +:+ rest) (String c sep) = includes rest (String c sep).
Proof.
  induction x as [|a x IH]; intros Hx; [done|].
  rewrite mem_ascii_cons in Hx. apply orb_false_elim in Hx as [Hca Hx].
  change (String a x +:+ rest) with (String a (x +:+ rest)).
  cbn [includes starts_with]. rewrite Hca. simpl. auto.
Qed.

(** Without an occurrence of the separator, [split] returns the text. *)
Lemma split_absent (s sep : string) :
  includes s sep = false -> split s sep = [s].
Proof.
  unfold split. induction s as [|a s IH]; intros H; [done|].
  cbn [includes] in H. apply orb_false_elim in H as [H1 H2].
  cbn [split_go]. rewrite H1, (IH H2). done.
Qed.

(** Two names without [=], each followed by [=]: one is a prefix of the
    other only when they are equal. *)
Lemma starts_with_name (name n rest : string) :
  mem_ascii "=" name = false -> mem_ascii "=" n = false ->
  starts_with (name +:+ "=") (n +:+ "=" +:+ rest) = true -> n = name.
Proof.
  revert n. induction name as [|a name IH]; intros n Hname Hn H.
  - destruct n as [|b n]; [done|].
    rewrite mem_ascii_cons in Hn. apply orb_false_elim in Hn as [Hb _].
    rewrite ?str_app_nil, ?str_app_cons in H. cbn [starts_with] in H.
    rewrite Hb in H. done.
  - rewrite mem_ascii_cons in Hname.
    apply orb_false_elim in Hname as [Ha Hname].
    destruct n as [|b n].
    + rewrite ?str_app_nil, ?str_app_cons in H. cbn [starts_with] in H.
      destruct (Ascii.eqb a "=") eqn:E; [|done].
      apply Ascii.eqb_eq in E. subst a. done.
    + rewrite mem_ascii_cons in Hn. apply orb_false_elim in Hn as [_ Hn].
      rewrite ?str_app_nil, ?str_app_cons in H. cbn [starts_with] in H.
      destruct (Ascii.eqb a b) eqn:E; [|done].
      apply Ascii.eqb_eq in E. subst b. f_equal. by apply IH.
Qed.

Lemma str_app_nil_r (s : string) : s +:+ "" = s.
Proof. induction s as [|a s IH]; rewrite ?str_app_nil, ?str_app_cons; congruence. Qed.

Lemma str_app_assoc (s t u : string) : (s +:+ t) +:+ u = s +:+ t +:+ u.
Proof. induction s as [|a s IH]; rewrite ?str_app_nil, ?str_app_cons; congruence. Qed.

End Strings.

(** The string operations on the texts the client meets. *)
Example split_cookie_text :
  split "; theme=dark; auth_token=abc.def; lang=en" "; auth_token="
  = ["; theme=dark"; "abc.def; lang=en"]
  /\ split "abc.def; lang=en" ";" = ["abc.def"; " lang=en"]
  /\ split "" ";" = [""].
Proof. repeat split. Qed.

Section AsciiTexts.
#[local] Existing Instance ascii_engine.

Example trim_and_case :
  trim "  very ambitious " = "very ambitious" /\ trim "   " = ""
  /\ toLowerCase "AmBitious-9" = "ambitious-9".
Proof. repeat split. Qed.

Example parse_stored_count :
  parseInt "3" = Num 3 /\ parseInt " 12px" = Num 12 /\ parseInt "-4.5" = Num (-4)
  /\ parseInt "three" = NaN /\ parseInt "" = NaN /\ parseInt "-" = NaN.
Proof. repeat split. Qed.

End AsciiTexts.

Example encode_components :
  encodeURIComponent "ice cream/a&b" = "ice%20cream%2Fa%26b"
  /\ formEncode "col 1,col/2" = "col+1%2Ccol%2F2".
Proof. repeat split. Qed.

(** ** The cookie jar *)
Section Cookies.

Lemma document_cookie_cons (c : string * string) (jar : list (string * string)) :
  "; " +:+ document_cookie (c :: jar)
  = "; " +:+ (fst c +:+ "=" +:+ snd c) +:+ jar_tail jar.
Proof.
  unfold document_cookie. destruct jar as [|d jar]; cbn [map join jar_tail].
  - by rewrite str_app_nil_r.
  - done.
Qed.

Variable name : string.
Hypothesis name_no_eq : mem_ascii "=" name = false.

Let sep : string := "; " +:+ name +:+ "=".

(** One cookie of another name, followed by text without a match, has no
    match of the separator [; name=]. *)
Lemma cookie_no_match (c : string * string) (rest : string) :
  cookie_wf c = true -> fst c <> name ->
  includes rest sep = false ->
  includes ("; " +:+ (fst c +:+ "=" +:+ snd c) +:+ rest) sep = false.
Proof.
  intros Hwf Hne Hrest. destruct c as [n v]. cbn [fst snd] in *.
  unfold cookie_wf in Hwf. cbn [fst snd] in Hwf.
  apply andb_prop in Hwf as [Hwf Hv]. apply andb_prop in Hwf as [Hn1 Hn2].
  apply negb_true_iff in Hv, Hn1, Hn2.
  subst sep. rewrite !str_app_cons, !str_app_nil.
  cbn [includes starts_with]. rewrite !Ascii.eqb_refl.
  replace (Ascii.eqb ";" " ") with false by reflexivity.
  cbn [orb].
  apply orb_false_intro.
  - destruct (starts_with (name +:+ "=") ((n +:+ "=" +:+ v) +:+ rest)) eqn:E;
      [|done].
    rewrite !str_app_assoc in E. apply starts_with_name in E; done.
  - rewrite includes_skip; [done|].
    rewrite mem_ascii_app, ?mem_ascii_app, ?mem_ascii_cons, Hn1, Hv.
    reflexivity.
Qed.

Lemma jar_tail_no_match (jar : list (string * string)) :
  jar_wf jar = true ->
  Forall (fun c => fst c <> name) jar ->
  includes (jar_tail jar) sep = false.
Proof.
  induction jar as [|c jar IH]; intros Hwf Hall.
  - subst sep. reflexivity.
  - cbn [jar_wf forallb] in Hwf. apply andb_prop in Hwf as [Hc Hwf].
    inversion Hall as [|? ? Hne Hall']; subst.
    unfold jar_tail. rewrite document_cookie_cons.
    apply cookie_no_match; auto.
Qed.

(** A jar without a cookie called [name] reads as [null]. *)
Lemma read_cookie_absent (jar : list (string * string)) :
  jar_wf jar = true ->
  Forall (fun c => fst c <> name) jar ->
  Api.read_cookie name jar = None.
Proof.
  intros Hwf Hall. unfold Api.read_cookie.
  rewrite split_absent; [done|].
  destruct jar as [|c jar].
  - fold sep. subst sep. cbn [document_cookie map join].
    rewrite !str_app_cons, !str_app_nil. cbn [includes starts_with].
    rewrite !Ascii.eqb_refl.
    replace (Ascii.eqb ";" " ") with false by reflexivity.
    destruct name; reflexivity.
  - apply (jar_tail_no_match (c :: jar) Hwf Hall).
Qed.

End Cookies.

Lemma jar_remove_absent (name : string) (jar : list (string * string)) :
  Forall (fun c => fst c <> name) (jar_remove name jar).
Proof.
  unfold jar_remove. apply Forall_forall. intros c Hc.
  apply list_elem_of_In, filter_In in Hc as [_ Hc].
  apply negb_true_iff, String.eqb_neq in Hc. done.
Qed.

Lemma jar_remove_wf (name : string) (jar : list (string * string)) :
  jar_wf jar = true -> jar_wf (jar_remove name jar) = true.
Proof.
  unfold jar_wf, jar_remove. rewrite !forallb_forall. intros H c Hc.
  apply filter_In in Hc as [Hc _]. auto.
Qed.

(** ** The request helper *)
Section Request.

Variables (endpoint : string) (options : Api.RequestInit) (w : World).

Let config : Request := Api.sends w endpoint options.

(** The world once the reply has arrived. *)
Let arrived : World := with_request config w.

Lemma request_rejected (e : exn) :
  outcome (Api.reply w endpoint options) = Rejected e ->
  Api.request endpoint options w
  = (Throw (match e with Error _ => e | Thrown _ => Error "Network error" end),
     arrived).
Proof.
  intros H. unfold Api.request, Api.getToken, Api.getCookie, Api.fetch.
  unfold_m. cbn. unfold Api.reply, Api.sends in H. rewrite H.
  destruct e; reflexivity.
Qed.

Ltac run_request H :=
  unfold Api.request, Api.getToken, Api.getCookie, Api.fetch;
  unfold_m; cbn; unfold Api.reply, Api.sends in H; rewrite H.

Lemma request_unauthorized (resp : Response) :
  outcome (Api.reply w endpoint options) = Resolved resp ->
  status resp = 401%Z ->
  Api.request endpoint options w
  = (Throw (Error Api.AUTH_REQUIRED),
     with_cookies (jar_remove Api.COOKIE_NAME (cookies w)) arrived).
Proof.
  intros H Hs. run_request H.
  unfold ok. rewrite Hs. cbn. unfold assign_cookie, expired.
  replace (0 <=? _)%N with true by (symmetry; apply N.leb_le; lia).
  reflexivity.
Qed.

Lemma request_quota (resp : Response) :
  outcome (Api.reply w endpoint options) = Resolved resp ->
  status resp = 429%Z ->
  Api.request endpoint options w = (Throw (Error Api.QUOTA_EXCEEDED), arrived).
Proof.
  intros H Hs. run_request H.
  unfold ok. rewrite Hs. reflexivity.
Qed.

Lemma request_failed (resp : Response) :
  outcome (Api.reply w endpoint options) = Resolved resp ->
  ok resp = false -> status resp <> 401%Z -> status resp <> 429%Z ->
  Api.request endpoint options w
  = (Throw (Error (Api.http_status resp +:+ ": " +:+ statusText resp)),
     arrived).
Proof.
  intros H Hok H1 H2. run_request H. rewrite Hok. cbn.
  apply Z.eqb_neq in H1, H2. rewrite H1, H2.
  unfold Api.throw_parsed, Api.json. unfold_m.
  destruct (jsonBody resp) as [errorData|]; [|reflexivity].
  destruct errorData; reflexivity.
Qed.

Lemma request_ok (resp : Response) :
  outcome (Api.reply w endpoint options) = Resolved resp ->
  ok resp = true ->
  Api.request endpoint options w = (Api.payload resp, arrived).
Proof.
  intros H Hok. run_request H. rewrite Hok. cbn. unfold Api.payload.
  destruct (contentType resp) as [ct|]; [|reflexivity].
  destruct (negb (String.eqb ct "") && includes ct "application/json");
    [|reflexivity].
  unfold Api.json. destruct (jsonBody resp); reflexivity.
Qed.

(** Every call issues exactly one request, and touches nothing but the
    request log, the clock and, on a 401, the cookie jar. *)
Lemma request_frame :
  let w' := snd (Api.request endpoint options w) in
  sent w' = sent w ++ [config] /\
  wordCache w' = wordCache w /\
  localStorage w' = localStorage w /\
  effects w' = effects w /\
  history w' = history w /\
  server w' = server w /\
  baseURL w' = baseURL w /\
  now w' = (now w + latency (Api.reply w endpoint options))%N.
Proof.
  destruct (outcome (Api.reply w endpoint options)) as [resp|e] eqn:H.
  - destruct (ok resp) eqn:Hok.
    + rewrite (request_ok resp H Hok). cbn. tauto.
    + destruct (Z.eq_dec (status resp) 401%Z) as [E1|E1].
      { rewrite (request_unauthorized resp H E1). cbn. tauto. }
      destruct (Z.eq_dec (status resp) 429%Z) as [E2|E2].
      { rewrite (request_quota resp H E2). cbn. tauto. }
      rewrite (request_failed resp H Hok E1 E2). cbn. tauto.
  - rewrite (request_rejected e H). cbn. tauto.
Qed.

End Request.

(** ** The word cache *)
Section WordCache.
Context `{Engine}.

Variables (word : string) (w : World).

Let key : string := Api.cacheKey word.

(** A fresh entry answers the call; nothing is sent or changed. *)
Lemma enhanced_fresh (c : CacheEntry) :
  wordCache w !! key = Some c ->
  (Z.of_N (now w) - Z.of_N (timestamp c) < Api.CACHE_DURATION)%Z ->
  Api.getEnhancedWordInfo word w = (Ok (data c), w).
Proof.
  intros Hc Hfresh. unfold Api.getEnhancedWordInfo. unfold_m.
  fold key. rewrite Hc. unfold Api.fresh.
  apply Z.ltb_lt in Hfresh. rewrite Hfresh. reflexivity.
Qed.

(** Without a fresh entry the call is one request: its payload is stored
    under the key with the time of arrival, and a quota error is
    answered from the entry read before the request, if there was one. *)
Lemma enhanced_lookup :
  Api.fresh (wordCache w !! key) (now w) = None ->
  Api.getEnhancedWordInfo word w
  = match Api.request (Api.enhanced_endpoint word) Api.no_options w with
    | (Ok d, w') =>
        (Ok d,
         with_wordCache
           (<[key := {| data := d; timestamp := now w' |}]> (wordCache w')) w')
    | (Throw e, w') =>
        (match e, wordCache w !! key with
         | Error m, Some c =>
             if String.eqb m Api.QUOTA_EXCEEDED then Ok (data c) else Throw e
         | _, _ => Throw e
         end, w')
    end.
Proof.
  intros Hstale. unfold Api.getEnhancedWordInfo. unfold_m.
  fold key. rewrite Hstale.
  destruct (Api.request (Api.enhanced_endpoint word) Api.no_options w)
    as [[d|e] w'].
  - reflexivity.
  - destruct e as [m|v]; [|by destruct (wordCache w !! key)].
    destruct (wordCache w !! key); [|reflexivity].
    destruct (String.eqb m Api.QUOTA_EXCEEDED); reflexivity.
Qed.

End WordCache.

(** The token written by [setToken] is the one [getToken] reads, up to
    the first [;]; [logout] removes it. *)
Example token_round_trip :
  let w := Samples.guest_browser (fun _ => Samples.not_found) in
  fst (Api.getToken w) = Ok None /\
  fst (Api.getToken (snd (Api.setToken "abc.def" w))) = Ok (Some "abc.def") /\
  fst (Api.getToken (snd (Api.setToken "abc;def" w))) = Ok (Some "abc") /\
  fst (Api.isAuthenticated (snd (Api.logout (snd (Api.setToken "abc.def" w)))))
  = Ok false.
Proof. repeat split. Qed.

(** The due-card request carries the collection as a query parameter. *)
Example due_cards_url :
  let w := Samples.browser (Samples.json_reply 200 "OK" (VObj [("cards", VArr [])])) in
  map url (sent (snd (Api.getCardsForReview (Some "col 1") None w)))
  = ["/api/users/review/due?collectionId=col+1"] /\
  map url (sent (snd (Api.getCardsForReview (Some "x") (Some ["a"; "b"]) w)))
  = ["/api/users/review/due?collectionIds=a%2Cb"] /\
  map url (sent (snd (Api.getCardsForReview None None w)))
  = ["/api/users/review/due"].
Proof. repeat split. Qed.

(** ** The API client: claims *)

(** C2. When the response to a request has status 401, the stored
    auth-token cookie is removed by the time the call rejects with the
    authentication-required error: the jar holds no [auth_token] cookie
    and the next [isAuthenticated()] returns false. *)
Theorem unauthorized_clears_token
    (endpoint : string) (options : Api.RequestInit) (w : World)
    (resp : Response) :
  jar_wf (cookies w) = true ->
  outcome (Api.reply w endpoint options) = Resolved resp ->
  status resp = 401%Z ->
  let '(r, w') := Api.request endpoint options w in
  r = Throw (Error Api.AUTH_REQUIRED) /\
  Forall (fun c => fst c <> Api.COOKIE_NAME) (cookies w') /\
  Api.isAuthenticated w' = (Ok false, w').
Proof.
  intros Hwf Hreply H401.
  rewrite (request_unauthorized endpoint options w resp Hreply H401).
  split; [reflexivity|]. split.
  - apply jar_remove_absent.
  - unfold Api.isAuthenticated, Api.getToken, Api.getCookie. unfold_m.
    cbn [cookies with_cookies].
    rewrite read_cookie_absent;
      auto using jar_remove_absent, jar_remove_wf.
Qed.

Lemma unauthorized_clears_token_witness :
  let w := Samples.browser Samples.unauthorized in
  Api.isAuthenticated w = (Ok true, w) /\
  let '(r, w') := Api.request "/users/profile" Api.no_options w in
  r = Throw (Error Api.AUTH_REQUIRED) /\
  Forall (fun c => fst c <> Api.COOKIE_NAME) (cookies w') /\
  Api.isAuthenticated w' = (Ok false, w').
Proof.
  split; [reflexivity|].
  apply (unauthorized_clears_token "/users/profile" Api.no_options
           (Samples.browser Samples.unauthorized)
           {| status := 401; statusText := "Unauthorized";
              contentType := Some "application/json; charset=utf-8";
              jsonBody := Some (VObj [("error", VStr "Invalid token")]) |});
    reflexivity.
Defined.

(** C5. A response with a non-2xx status other than 401 and 429 makes
    [request] reject with an Error whose message is exactly
    [HTTP {status}: {statusText}]. The Error that carries the [error]
    field of a parsed JSON body is thrown inside the inner [try] and
    replaced by its [catch]. *)
Theorem generic_http_error_message
    (endpoint : string) (options : Api.RequestInit) (w : World)
    (resp : Response) :
  outcome (Api.reply w endpoint options) = Resolved resp ->
  ok resp = false ->
  status resp <> 401%Z ->
  status resp <> 429%Z ->
  fst (Api.request endpoint options w)
  = Throw (Error ("HTTP " +:+ pretty (status resp) +:+ ": " +:+ statusText resp))
  /\ forall (fields : list (string * value)) (w' : World),
       jsonBody resp = Some (VObj fields) ->
       fst (Api.throw_parsed resp w')
       = Throw (Error (ToString (or_else (assoc "error" fields)
                                         (VStr ("HTTP " +:+ pretty (status resp)))))).
Proof.
  intros Hreply Hok H401 H429. split.
  - rewrite (request_failed endpoint options w resp Hreply Hok H401 H429).
    cbn [fst]. unfold Api.http_status. by rewrite str_app_assoc.
  - intros fields w' Hbody. unfold Api.throw_parsed, Api.json. unfold_m.
    rewrite Hbody. reflexivity.
Qed.

Lemma generic_http_error_message_witness :
  let resp := {| status := 404; statusText := "Not Found";
                 contentType := Some "application/json; charset=utf-8";
                 jsonBody := Some (VObj [("error", VStr "Word not found")]) |} in
  fst (Api.request "/words/meanings/zzz" Api.no_options
         (Samples.browser Samples.not_found))
  = Throw (Error "HTTP 404: Not Found")
  /\ fst (Api.throw_parsed resp (Samples.browser Samples.not_found))
     = Throw (Error "Word not found").
Proof.
  cbv zeta.
  pose proof (generic_http_error_message "/words/meanings/zzz" Api.no_options
                (Samples.browser Samples.not_found)
                {| status := 404; statusText := "Not Found";
                   contentType := Some "application/json; charset=utf-8";
                   jsonBody := Some (VObj [("error", VStr "Word not found")]) |}
                eq_refl eq_refl ltac:(discriminate) ltac:(discriminate))
    as [H1 H2].
  split; [exact H1|]. exact (H2 _ _ eq_refl).
Defined.

(** A call for any word leaves an entry that is still fresh where it is:
    the only write to the cache is the one that follows a lookup without
    a fresh entry for its own key. *)
Lemma enhanced_keeps_fresh_entry `{Engine} (word : string) (w : World)
    (k : string) (c : CacheEntry) :
  wordCache w !! k = Some c ->
  (Z.of_N (now w) - Z.of_N (timestamp c) < Api.CACHE_DURATION)%Z ->
  wordCache (snd (Api.getEnhancedWordInfo word w)) !! k = Some c.
Proof.
  intros Hk Hfresh.
  destruct (decide (Api.cacheKey word = k)) as [<-|Hne].
  - by rewrite (enhanced_fresh word w c Hk Hfresh).
  - destruct (Api.fresh (wordCache w !! Api.cacheKey word) (now w))
      as [c'|] eqn:Hf.
    + unfold Api.fresh in Hf.
      destruct (wordCache w !! Api.cacheKey word) as [c''|] eqn:Hc; [|done].
      destruct (Z.ltb_spec (Z.of_N (now w) - Z.of_N (timestamp c''))
                  Api.CACHE_DURATION) as [Hlt|]; [|done].
      by rewrite (enhanced_fresh word w c'' Hc Hlt).
    + rewrite (enhanced_lookup word w Hf).
      pose proof (request_frame (Api.enhanced_endpoint word) Api.no_options w)
        as (_ & Hcache & _).
      destruct (Api.request (Api.enhanced_endpoint word) Api.no_options w)
        as [[d|e] w']; cbn [snd] in *.
      * cbn [wordCache with_wordCache].
        rewrite lookup_insert_ne by done. by rewrite Hcache.
      * by rewrite Hcache.
Qed.

(** C1. Two calls of [getEnhancedWordInfo] whose words are equal up to
    letter case. The first one has no fresh entry, goes to the network
    and gets payload [d], which it stores with the time [t1] at which it
    arrived. A second call that finds that entry in the cache and starts less than 30
    minutes after [t1] resolves with [d] and changes nothing, so it sends
    no request; one that starts 30 minutes or more after [t1] sends a
    new request for its word. *)
Theorem enhanced_cache_window `{Engine}
    (word1 word2 : string) (w wr w2 : World) (d : value) :
  toLowerCase word1 = toLowerCase word2 ->
  Api.fresh (wordCache w !! Api.cacheKey word1) (now w) = None ->
  Api.request (Api.enhanced_endpoint word1) Api.no_options w = (Ok d, wr) ->
  wordCache w2 !! Api.cacheKey word1
  = wordCache (snd (Api.getEnhancedWordInfo word1 w)) !! Api.cacheKey word1 ->
  let t1 := now (snd (Api.getEnhancedWordInfo word1 w)) in
  fst (Api.getEnhancedWordInfo word1 w) = Ok d /\
  t1 = now wr /\
  ((Z.of_N (now w2) - Z.of_N t1 < 30 * 60 * 1000)%Z ->
   Api.getEnhancedWordInfo word2 w2 = (Ok d, w2)) /\
  ((30 * 60 * 1000 <= Z.of_N (now w2) - Z.of_N t1)%Z ->
   sent (snd (Api.getEnhancedWordInfo word2 w2))
   = sent w2 ++ [Api.sends w2 (Api.enhanced_endpoint word2) Api.no_options]).
Proof.
  intros Hcase Hstale Hreq Hentry.
  assert (Hkey : Api.cacheKey word2 = Api.cacheKey word1)
    by (unfold Api.cacheKey; by rewrite Hcase).
  rewrite <- Hkey in Hentry at 1. clear Hkey.
  rewrite (enhanced_lookup word1 w Hstale), Hreq in *.
  cbn [fst snd wordCache with_wordCache now] in *.
  rewrite lookup_insert_eq in Hentry.
  split; [reflexivity|]. split; [reflexivity|]. split.
  - intros Hwithin.
    apply (enhanced_fresh word2 w2 {| data := d; timestamp := now wr |} Hentry).
    exact Hwithin.
  - intros Hafter.
    rewrite enhanced_lookup.
    + pose proof (request_frame (Api.enhanced_endpoint word2) Api.no_options w2)
        as (Hsent & _).
      destruct (Api.request (Api.enhanced_endpoint word2) Api.no_options w2)
        as [[d'|e] w2']; exact Hsent.
    + rewrite Hentry. unfold Api.fresh. cbn [timestamp].
      apply Z.ltb_ge in Hafter. unfold Api.CACHE_DURATION.
      replace (1000 * 60 * 30)%Z with (30 * 60 * 1000)%Z by reflexivity.
      by rewrite Hafter.
Qed.

Section CacheWindowRun.
#[local] Existing Instance ascii_engine.

Lemma enhanced_cache_window_witness :
  let w := Samples.browser (Samples.json_reply 200 "OK" Samples.hello) in
  let w1 := snd (Api.getEnhancedWordInfo "Hello" w) in
  toLowerCase "Hello" = toLowerCase "hELLO" /\
  (Api.getEnhancedWordInfo "hELLO" (Samples.later 1799999 w1)
   = (Ok Samples.hello, Samples.later 1799999 w1)) /\
  length (sent (snd (Api.getEnhancedWordInfo "hELLO" (Samples.later 1800000 w1))))
  = 2.
Proof.
  cbv zeta. split; [reflexivity|]. split.
  - pose proof (enhanced_cache_window "Hello" "hELLO"
             (Samples.browser (Samples.json_reply 200 "OK" Samples.hello))
             (snd (Api.request (Api.enhanced_endpoint "Hello") Api.no_options
                     (Samples.browser (Samples.json_reply 200 "OK" Samples.hello))))
             (Samples.later 1799999
                (snd (Api.getEnhancedWordInfo "Hello"
                   (Samples.browser (Samples.json_reply 200 "OK" Samples.hello)))))
             Samples.hello eq_refl eq_refl eq_refl eq_refl) as (_ & _ & H & _).
    apply H. vm_compute. reflexivity.
  - pose proof (enhanced_cache_window "Hello" "hELLO"
             (Samples.browser (Samples.json_reply 200 "OK" Samples.hello))
             (snd (Api.request (Api.enhanced_endpoint "Hello") Api.no_options
                     (Samples.browser (Samples.json_reply 200 "OK" Samples.hello))))
             (Samples.later 1800000
                (snd (Api.getEnhancedWordInfo "Hello"
                   (Samples.browser (Samples.json_reply 200 "OK" Samples.hello)))))
             Samples.hello eq_refl eq_refl eq_refl eq_refl) as (_ & _ & _ & H).
    rewrite H; [reflexivity|]. vm_compute. discriminate.
Defined.

End CacheWindowRun.

(** C9. The network request of [getEnhancedWordInfo] rejects with the
    quota error: with an entry for the lowercased word in the cache the
    call resolves with that entry's payload, although the entry is older
    than the freshness window (a fresh entry would have answered without
    a request); the quota error reaches the caller only when there is no
    entry. *)
Theorem quota_served_from_cache `{Engine} (word : string) (w w' : World) :
  Api.fresh (wordCache w !! Api.cacheKey word) (now w) = None ->
  Api.request (Api.enhanced_endpoint word) Api.no_options w
  = (Throw (Error Api.QUOTA_EXCEEDED), w') ->
  Api.getEnhancedWordInfo word w
  = (match wordCache w !! Api.cacheKey word with
     | Some c => Ok (data c)
     | None => Throw (Error Api.QUOTA_EXCEEDED)
     end, w')
  /\ (forall c, wordCache w !! Api.cacheKey word = Some c ->
        (Api.CACHE_DURATION <= Z.of_N (now w) - Z.of_N (timestamp c))%Z).
Proof.
  intros Hstale Hreq. split.
  - rewrite (enhanced_lookup word w Hstale), Hreq.
    destruct (wordCache w !! Api.cacheKey word); reflexivity.
  - intros c Hc. rewrite Hc in Hstale. unfold Api.fresh in Hstale.
    destruct (Z.ltb_spec (Z.of_N (now w) - Z.of_N (timestamp c))
                Api.CACHE_DURATION); [done|lia].
Qed.

Section QuotaCacheRun.
#[local] Existing Instance ascii_engine.

Lemma quota_served_from_cache_witness :
  let w0 := Samples.browser (Samples.json_reply 200 "OK" Samples.hello) in
  let w := Samples.with_server (fun _ => Samples.too_many)
             (Samples.later 3600000 (snd (Api.getEnhancedWordInfo "hello" w0))) in
  fst (Api.getEnhancedWordInfo "Hello" w) = Ok Samples.hello /\
  fst (Api.getEnhancedWordInfo "other" w) = Throw (Error Api.QUOTA_EXCEEDED).
Proof.
  cbv zeta. split.
  - pose proof (quota_served_from_cache "Hello"
      (Samples.with_server (fun _ => Samples.too_many)
         (Samples.later 3600000
            (snd (Api.getEnhancedWordInfo "hello"
                    (Samples.browser (Samples.json_reply 200 "OK" Samples.hello))))))
      _ eq_refl eq_refl) as [H _].
    rewrite H. reflexivity.
  - pose proof (quota_served_from_cache "other"
      (Samples.with_server (fun _ => Samples.too_many)
         (Samples.later 3600000
            (snd (Api.getEnhancedWordInfo "hello"
                    (Samples.browser (Samples.json_reply 200 "OK" Samples.hello))))))
      _ eq_refl eq_refl) as [H _].
    rewrite H. reflexivity.
Defined.

End QuotaCacheRun.

(** [getEnhancedWordInfo] sends at most one request and leaves local
    storage and the effects alone. *)
Lemma enhanced_frame `{Engine} (word : string) (w : World) :
  let w' := snd (Api.getEnhancedWordInfo word w) in
  (sent w' = sent w \/
   sent w' = sent w ++ [Api.sends w (Api.enhanced_endpoint word) Api.no_options]) /\
  localStorage w' = localStorage w /\
  effects w' = effects w.
Proof.
  destruct (Api.fresh (wordCache w !! Api.cacheKey word) (now w))
    as [c|] eqn:Hf.
  - unfold Api.fresh in Hf.
    destruct (wordCache w !! Api.cacheKey word) as [c'|] eqn:Hc; [|done].
    destruct (Z.ltb_spec (Z.of_N (now w) - Z.of_N (timestamp c'))
                Api.CACHE_DURATION) as [Hlt|]; [|done].
    rewrite (enhanced_fresh word w c' Hc Hlt). cbn. tauto.
  - rewrite (enhanced_lookup word w Hf).
    pose proof (request_frame (Api.enhanced_endpoint word) Api.no_options w)
      as (Hsent & _ & Hls & Heff & _).
    destruct (Api.request (Api.enhanced_endpoint word) Api.no_options w)
      as [[d|err] w']; cbn in *; tauto.
Qed.

(** ** The word-input screen *)
Section SubmitRuns.
Import WordInput.
Context `{Engine}.

Variables (p : Props) (e : Env State).

Ltac run_submit :=
  unfold incrementGuestApiCount, setLoading, setError, setWordData,
    setSelectedMeaning, setCustomMeaning, setUseCustomMeaning,
    setGuestApiCount;
  unfold_m.

(** The search form while a lookup is in flight, and after it with word
    data [d], error [m] and counter [n]. *)
#[local] Abbreviation searching :=
  {| word := word (ui e); loading := true; error := ""; wordData := VNull;
     selectedMeaning := ""; customMeaning := ""; useCustomMeaning := false;
     guestApiCount := guestApiCount (ui e) |}.
#[local] Abbreviation shown d m n :=
  {| word := word (ui e); loading := false; error := m; wordData := d;
     selectedMeaning := ""; customMeaning := ""; useCustomMeaning := false;
     guestApiCount := n |}.

(** The two guards of [handleSubmit] let a submission through. *)
Lemma guards_passed :
  trim (word (ui e)) <> "" ->
  isAuthenticated p = true \/
  at_least GUEST_API_LIMIT (guestApiCount (ui e)) = false ->
  String.eqb (trim (word (ui e))) "" = false /\
  negb (isAuthenticated p) && at_least GUEST_API_LIMIT (guestApiCount (ui e))
  = false.
Proof.
  intros Hword Hguard. split.
  - by apply String.eqb_neq.
  - destruct Hguard as [Hg|Hg]; rewrite Hg; [done|]. apply andb_false_r.
Qed.

(** *** The runs of [handleSubmit], one equation per path *)

Lemma submit_blank :
  trim (word (ui e)) = "" ->
  dispatch (handleSubmit p) e
  = (Ok tt,
     {| world := world e;
        ui := {| word := word (ui e); loading := loading (ui e);
                 error := ENTER_A_WORD; wordData := wordData (ui e);
                 selectedMeaning := selectedMeaning (ui e);
                 customMeaning := customMeaning (ui e);
                 useCustomMeaning := useCustomMeaning (ui e);
                 guestApiCount := guestApiCount (ui e) |};
        frames := frames e |}).
Proof.
  intros Hblank. unfold dispatch, handleSubmit. rewrite Hblank. reflexivity.
Qed.

Lemma submit_at_limit :
  trim (word (ui e)) <> "" ->
  isAuthenticated p = false ->
  at_least GUEST_API_LIMIT (guestApiCount (ui e)) = true ->
  dispatch (handleSubmit p) e
  = (Ok tt,
     {| world := with_effects (effects (world e) ++ [OnLoginRequired]) (world e);
        ui := ui e; frames := frames e |}).
Proof.
  intros Hword Hguest Hlimit. apply String.eqb_neq in Hword.
  unfold dispatch, handleSubmit. rewrite Hword, Hguest, Hlimit. reflexivity.
Qed.

(** A submission that passes the guards is one enhanced lookup and, on
    the quota error, one plain lookup. *)
Lemma submit_lookup :
  trim (word (ui e)) <> "" ->
  isAuthenticated p = true \/
  at_least GUEST_API_LIMIT (guestApiCount (ui e)) = false ->
  dispatch (handleSubmit p) e
  = let counted (d : value) (w : World) (fs : list State) :=
      if isAuthenticated p
      then {| world := w; ui := shown d "" (guestApiCount (ui e));
              frames := frames e ++ fs |}
      else {| world :=
                with_localStorage
                  (<[GUEST_API_COUNT_KEY :=
                       num_toString (succ (guestApiCount (ui e)))]>
                     (localStorage w)) w;
              ui := shown d "" (succ (guestApiCount (ui e)));
              frames := frames e ++ fs |} in
    let failed (w : World) (fs : list State) :=
      {| world := w; ui := shown VNull NOT_FOUND (guestApiCount (ui e));
         frames := frames e ++ fs |} in
    match Api.getEnhancedWordInfo (trim (word (ui e))) (world e) with
    | (Ok d, w1) => (Ok tt, counted d w1 [searching])
    | (Throw err, w1) =>
        if String.eqb (match err with Error m => m | Thrown _ => "Unknown error" end)
                      Api.QUOTA_EXCEEDED
        then
          match Api.getWordMeanings (trim (word (ui e))) w1 with
          | (Ok a, w2) =>
              match prop a "word", prop a "meanings" with
              | Ok x, Ok y =>
                  (Ok tt,
                   counted (VObj [("word", x); ("meanings", y);
                                  ("phonetic", VStr "")])
                           w2 [searching; searching])
              | _, _ => (Ok tt, failed w2 [searching; searching])
              end
          | (Throw _, w2) => (Ok tt, failed w2 [searching; searching])
          end
        else (Ok tt, failed w1 [searching])
    end.
Proof.
  intros Hword Hguard. destruct (guards_passed Hword Hguard) as [G1 G2].
  unfold dispatch, handleSubmit. rewrite G1, G2. run_submit. cbn.
  destruct (Api.getEnhancedWordInfo (trim (word (ui e))) (world e))
    as [[d|err] w1]; cbn.
  { by destruct (isAuthenticated p). }
  destruct (String.eqb _ Api.QUOTA_EXCEEDED); [|done]. cbn.
  destruct (Api.getWordMeanings (trim (word (ui e))) w1) as [[a|err'] w2];
    cbn; rewrite <- ?List.app_assoc; [|done].
  destruct (prop a "word") as [x|]; cbn; [|done].
  destruct (prop a "meanings") as [y|]; cbn; [|done].
  by destruct (isAuthenticated p).
Qed.

End SubmitRuns.

Section WordInputFacts.
Import WordInput.
Context `{Engine}.

Variables (p : Props) (e : Env State).

(** C3. A search submission whose enhanced lookup rejects with the
    quota-exceeded signal: the screen calls [getWordMeanings] for the
    same word; the handler never throws, and when the fallback rejects
    as well the screen shows the "Word not found" error. When the
    fallback resolves with a record, its word and meanings become the
    word data. The signal is what [request] throws on status 429. *)
Theorem quota_falls_back_to_meanings (w1 : World) :
  trim (word (ui e)) <> "" ->
  isAuthenticated p = true \/
  at_least GUEST_API_LIMIT (guestApiCount (ui e)) = false ->
  Api.getEnhancedWordInfo (trim (word (ui e))) (world e)
  = (Throw (Error Api.QUOTA_EXCEEDED), w1) ->
  let fallback := Api.getWordMeanings (trim (word (ui e))) w1 in
  let '(r, e') := dispatch (handleSubmit p) e in
  r = Ok tt /\
  sent (world e')
  = sent w1 ++ [Api.sends w1 (Api.meanings_endpoint (trim (word (ui e))))
                  Api.no_options] /\
  loading (ui e') = false /\
  (forall err, fst fallback = Throw err ->
     error (ui e') = NOT_FOUND /\ wordData (ui e') = VNull) /\
  (forall fields, fst fallback = Ok (VObj fields) ->
     error (ui e') = "" /\
     wordData (ui e') = VObj [("word", assoc "word" fields);
                              ("meanings", assoc "meanings" fields);
                              ("phonetic", VStr "")]) /\
  (forall endpoint options w resp,
     outcome (Api.reply w endpoint options) = Resolved resp ->
     status resp = 429%Z ->
     fst (Api.request endpoint options w) = Throw (Error Api.QUOTA_EXCEEDED)).
Proof.
  intros Hword Hguard Henh. cbv zeta.
  pose proof (request_frame (Api.meanings_endpoint (trim (word (ui e))))
                Api.no_options w1) as (Hsent & _).
  rewrite (submit_lookup p e Hword Hguard), Henh, String.eqb_refl.
  unfold Api.getWordMeanings in *.
  destruct (Api.request (Api.meanings_endpoint (trim (word (ui e))))
              Api.no_options w1) as [[a|err] w2]; cbn [fst snd] in *.
  - destruct a; cbn [prop]; destruct (isAuthenticated p);
      cbn [world ui sent with_localStorage loading error wordData];
      (split; [reflexivity|]); (split; [exact Hsent|]);
      (split; [reflexivity|]); (split; [intros ? [=]|]);
      (split; [intros ? [=]; by subst|]);
      intros ? ? ? ? Hr Hs; by rewrite (request_quota _ _ _ _ Hr Hs).
  - cbn [world ui sent loading error wordData].
    (split; [reflexivity|]); (split; [exact Hsent|]);
      (split; [reflexivity|]); (split; [done|]);
      (split; [intros ? [=]|]);
      intros ? ? ? ? Hr Hs; by rewrite (request_quota _ _ _ _ Hr Hs).
Qed.

(** The mount effect puts a stored count that is not the empty string,
    as [parseInt] reads it, in the place of the counter. *)
Lemma mount_stored (s : string) :
  localStorage (world e) !! GUEST_API_COUNT_KEY = Some s ->
  s <> "" ->
  mount e
  = (Ok tt,
     {| world := world e;
        ui := {| word := word (ui e); loading := loading (ui e);
                 error := error (ui e); wordData := wordData (ui e);
                 selectedMeaning := selectedMeaning (ui e);
                 customMeaning := customMeaning (ui e);
                 useCustomMeaning := useCustomMeaning (ui e);
                 guestApiCount := parseInt s |};
        frames := frames e |}).
Proof.
  intros Hs Hne. apply String.eqb_neq in Hne.
  unfold mount, setGuestApiCount. unfold_m. rewrite Hs, Hne. reflexivity.
Qed.

(** C10, as the code has it. Every submission returns normally. For a
    guest:
    - a blank submission is answered with "Please enter a word" and
      touches nothing outside the screen, whatever the counter is;
    - a submission of a non-blank word made while the counter is at
      least 3 opens the login prompt, sends no request and changes no
      state;
    - the counter goes up, by one and together with its copy in local
      storage, only when the enhanced lookup resolved or, after a quota
      error, the plain-meanings fallback did; after a failed lookup
      counter and local storage are as before; and a resolved enhanced
      lookup below the limit does count;
    - the counter is the one the mount effect read from local storage:
      with a stored text that [parseInt] reads as [n >= 3], the screen
      once mounted answers a typed word with the login prompt and no
      request, and a blank one with "Please enter a word". *)
Theorem guest_limit_and_counter :
  isAuthenticated p = false ->
  let c := ui e in
  let enhanced := Api.getEnhancedWordInfo (trim (word c)) (world e) in
  let fallback := Api.getWordMeanings (trim (word c)) (snd enhanced) in
  let '(r, e') := dispatch (handleSubmit p) e in
  r = Ok tt /\
  (trim (word c) = "" ->
   error (ui e') = ENTER_A_WORD /\
   world e' = world e /\
   guestApiCount (ui e') = guestApiCount c) /\
  (trim (word c) <> "" ->
   at_least GUEST_API_LIMIT (guestApiCount c) = true ->
   effects (world e') = effects (world e) ++ [OnLoginRequired] /\
   sent (world e') = sent (world e) /\
   ui e' = ui e) /\
  (guestApiCount (ui e') = guestApiCount c \/
   (guestApiCount (ui e') = succ (guestApiCount c) /\
    localStorage (world e') !! GUEST_API_COUNT_KEY
    = Some (num_toString (succ (guestApiCount c))) /\
    ((exists d, fst enhanced = Ok d) \/
     (fst enhanced = Throw (Error Api.QUOTA_EXCEEDED) /\
      exists d, fst fallback = Ok d)))) /\
  ((exists err, fst enhanced = Throw err /\
      (err <> Error Api.QUOTA_EXCEEDED \/ exists err', fst fallback = Throw err')) ->
   guestApiCount (ui e') = guestApiCount c /\
   localStorage (world e') = localStorage (world e)) /\
  (trim (word c) <> "" ->
   at_least GUEST_API_LIMIT (guestApiCount c) = false ->
   forall d, fst enhanced = Ok d ->
   guestApiCount (ui e') = succ (guestApiCount c)) /\
  (forall (text s : string) (n : Z),
     localStorage (world e) !! GUEST_API_COUNT_KEY = Some s ->
     s <> "" ->
     parseInt s = Num n ->
     (GUEST_API_LIMIT <= n)%Z ->
     let '(r1, e1) := (mount;; setWord text;; dispatch (handleSubmit p)) e in
     r1 = Ok tt /\
     guestApiCount (ui e1) = Num n /\
     sent (world e1) = sent (world e) /\
     (trim text <> "" ->
      effects (world e1) = effects (world e) ++ [OnLoginRequired]) /\
     (trim text = "" ->
      effects (world e1) = effects (world e) /\
      error (ui e1) = ENTER_A_WORD)).
Proof.
  intros Hguest. cbv zeta.
  assert (Hmounted : forall (text s : string) (n : Z),
     localStorage (world e) !! GUEST_API_COUNT_KEY = Some s ->
     s <> "" ->
     parseInt s = Num n ->
     (GUEST_API_LIMIT <= n)%Z ->
     let '(r1, e1) := (mount;; setWord text;; dispatch (handleSubmit p)) e in
     r1 = Ok tt /\
     guestApiCount (ui e1) = Num n /\
     sent (world e1) = sent (world e) /\
     (trim text <> "" ->
      effects (world e1) = effects (world e) ++ [OnLoginRequired]) /\
     (trim text = "" ->
      effects (world e1) = effects (world e) /\
      error (ui e1) = ENTER_A_WORD)).
  { intros text s n Hs Hne Hn Hlimit.
    unfold mbind, M_bind, bind. rewrite (mount_stored s Hs Hne), Hn.
    unfold setWord, set_state, modify. cbv beta iota.
    destruct (decide (trim text = "")) as [Hblank|Hword].
    - rewrite submit_blank by exact Hblank. cbn. done.
    - rewrite submit_at_limit; [cbn; done|exact Hword|exact Hguest|].
      cbn. apply Z.leb_le. exact Hlimit. }
  pose proof (enhanced_frame (trim (word (ui e))) (world e)) as (_ & Hls1 & _).
  pose proof (request_frame (Api.meanings_endpoint (trim (word (ui e))))
                Api.no_options
                (snd (Api.getEnhancedWordInfo (trim (word (ui e))) (world e))))
    as (_ & _ & Hls2 & _).
  destruct (decide (trim (word (ui e)) = "")) as [Hblank|Hword].
  { rewrite (submit_blank p e Hblank). cbn.
    split; [done|]. split; [done|]. split; [done|]. split; [by left|].
    split; [|split; [done|exact Hmounted]].
    intros _. split; reflexivity. }
  destruct (at_least GUEST_API_LIMIT (guestApiCount (ui e))) eqn:Hlimit.
  { rewrite (submit_at_limit p e Hword Hguest Hlimit). cbn.
    split; [done|]. split; [done|]. split; [done|]. split; [by left|].
    split; [done|]. split; [done|exact Hmounted]. }
  rewrite (submit_lookup p e Hword (or_intror Hlimit)), Hguest. cbv zeta.
  destruct (Api.getEnhancedWordInfo (trim (word (ui e))) (world e))
    as [[d|err] w1]; cbn [fst snd] in *.
  - cbn. split; [done|]. split; [done|]. split; [done|].
    split; [|split; [by intros (? & [=] & _)|split; [done|exact Hmounted]]].
    right. split; [done|]. split; [apply lookup_insert_eq|]. left. by exists d.
  - destruct err as [m|v].
    2:{ cbn. split; [done|]. split; [done|]. split; [done|].
        split; [by left|]. split; [done|]. split; [|exact Hmounted].
        intros _ _ ? [=]. }
    destruct (String.eqb_spec m Api.QUOTA_EXCEEDED) as [->|Hm].
    2:{ cbn. split; [done|]. split; [done|]. split; [done|].
        split; [by left|]. split; [done|]. split; [|exact Hmounted].
        intros _ _ ? [=]. }
    unfold Api.getWordMeanings in *.
    destruct (Api.request (Api.meanings_endpoint (trim (word (ui e))))
                Api.no_options w1) as [[a|err] w2]; cbn [fst snd] in *.
    + destruct a; cbn; (split; [done|]); (split; [done|]); (split; [done|]);
        (split;
         [first [ by left
                | right; split; [done|]; split; [apply lookup_insert_eq|];
                  right; split; [done|]; by eexists ]
         |]);
        (split; [|split; [by intros _ _ ? [=]|exact Hmounted]]);
        intros (? & [= <-] & [?|[? [=]]]); try done; by rewrite Hls2, Hls1.
    + cbn. split; [done|]. split; [done|]. split; [done|].
      split; [by left|]. split; [|split; [by intros _ _ ? [=]|exact Hmounted]].
      intros _. by rewrite Hls2, Hls1.
Qed.

End WordInputFacts.

Section WordInputRuns.
#[local] Existing Instance ascii_engine.

Lemma quota_falls_back_to_meanings_witness :
  let e := Samples.screen
             (Samples.guest_browser
                (Samples.first_then Samples.too_many Samples.not_found))
             (Samples.typed " ambitious " 0) in
  let e' := snd (dispatch (WordInput.handleSubmit Samples.guest) e) in
  WordInput.error (ui e') = WordInput.NOT_FOUND /\
  map url (sent (world e'))
  = ["/api/words/enhanced/ambitious"; "/api/words/meanings/ambitious"].
Proof.
  cbv zeta.
  pose proof (@quota_falls_back_to_meanings ascii_engine Samples.guest
    (Samples.screen
       (Samples.guest_browser
          (Samples.first_then Samples.too_many Samples.not_found))
       (Samples.typed " ambitious " 0))
    (snd (Api.getEnhancedWordInfo "ambitious"
            (Samples.guest_browser
               (Samples.first_then Samples.too_many Samples.not_found))))
    ltac:(vm_compute; discriminate) (or_intror eq_refl) eq_refl) as H.
  cbv zeta in H.
  destruct (dispatch (WordInput.handleSubmit Samples.guest) _) as [r e'].
  destruct H as (_ & Hsent & _ & Hnf & _). split.
  - eapply Hnf. vm_compute. reflexivity.
  - cbn [snd]. rewrite Hsent. vm_compute. reflexivity.
Defined.

(** C10 as stated fails on a blank submission: with a stored count of 3
    the mounted screen tells the guest to enter a word, and no login
    prompt opens. *)
Lemma blank_submission_opens_no_prompt :
  let e := Samples.screen
             (Samples.with_stored_count "3"
                (Samples.guest_browser (fun _ => Samples.not_found)))
             WordInput.initial in
  let e' := snd ((WordInput.mount;; WordInput.setWord "   ";;
                  dispatch (WordInput.handleSubmit Samples.guest)) e) in
  WordInput.isAuthenticated Samples.guest = false /\
  localStorage (world e) !! WordInput.GUEST_API_COUNT_KEY = Some "3" /\
  WordInput.guestApiCount (ui e') = Num 3 /\
  ~ In OnLoginRequired (effects (world e')) /\
  WordInput.error (ui e') = WordInput.ENTER_A_WORD.
Proof.
  cbv zeta. split; [reflexivity|]. split; [reflexivity|].
  split; [reflexivity|]. split; [|reflexivity]. vm_compute. tauto.
Qed.

Lemma guest_limit_and_counter_witness :
  let e := Samples.screen
             (Samples.with_stored_count "3"
                (Samples.guest_browser
                   (fun _ => Samples.json_reply 200 "OK" Samples.hello)))
             WordInput.initial in
  let e' := snd ((WordInput.mount;; WordInput.setWord "hello";;
                  dispatch (WordInput.handleSubmit Samples.guest)) e) in
  effects (world e') = [OnLoginRequired] /\ sent (world e') = [].
Proof.
  cbv zeta.
  pose proof (@guest_limit_and_counter ascii_engine Samples.guest
    (Samples.screen
       (Samples.with_stored_count "3"
          (Samples.guest_browser
             (fun _ => Samples.json_reply 200 "OK" Samples.hello)))
       WordInput.initial) eq_refl) as H.
  cbv zeta in H.
  destruct (dispatch (WordInput.handleSubmit Samples.guest) _) as [r e'].
  destruct H as (_ & _ & _ & _ & _ & _ & H).
  specialize (H "hello" "3" 3%Z eq_refl ltac:(discriminate) eq_refl
                (Z.le_refl _)).
  destruct ((WordInput.mount;; WordInput.setWord "hello";;
             dispatch (WordInput.handleSubmit Samples.guest)) _) as [r1 e1].
  destruct H as (_ & _ & Hsent & Hprompt & _). cbn [snd]. split.
  - apply Hprompt. vm_compute. discriminate.
  - exact Hsent.
Defined.

End WordInputRuns.

(** ** The review session *)
Section ReviewSessionFacts.
Import ReviewSession.

Ltac run_session :=
  unfold dispatch, loadDueCards, handleRating, setCards, setCurrentIndex,
    setShowAnswer, setLoading, setReviewing;
  unfold_m.

(** C4. A session holds [n] due cards and shows card [i]; a rating is
    submitted and its [recordCardReview] call succeeds. If [i < n - 1]
    the index becomes [i + 1] and the answer is hidden, and no callback
    is called; if the card is the last one the index stays and the
    completion callback is called exactly once, after the toast. *)
Theorem rating_advances_or_completes
    (rating : ReviewRating) (e : Env State) (items : list value)
    (card cid id x : value) (w1 : World) :
  cards (ui e) = VArr items ->
  reviewing (ui e) = false ->
  item (cards (ui e)) (currentIndex (ui e)) = Ok card ->
  prop card "collectionId" = Ok cid ->
  prop card "id" = Ok id ->
  Api.recordCardReview cid id (rating_number rating) (world e) = (Ok x, w1) ->
  let n := Z.of_nat (length items) in
  let i := currentIndex (ui e) in
  let '(r, e') := dispatch (handleRating rating) e in
  r = Ok tt /\
  (0 <= i < n)%Z /\
  world e' = with_effects (effects (world e')) w1 /\
  reviewing (ui e') = false /\
  cards (ui e') = VArr items /\
  ((i < n - 1)%Z ->
   currentIndex (ui e') = (i + 1)%Z /\
   showAnswer (ui e') = false /\
   effects (world e') = effects (world e)) /\
  (i = (n - 1)%Z ->
   currentIndex (ui e') = i /\
   effects (world e')
   = effects (world e) ++
     [ShowToast (SESSION_COMPLETE (VNum n)) "success"; OnComplete]).
Proof.
  intros Hcards Hidle Hcard Hcid Hid Hrec. cbv zeta.
  assert (Hin : (0 <= currentIndex (ui e) < Z.of_nat (length items))%Z).
  { rewrite Hcards in Hcard. cbn in Hcard.
    destruct (Z.ltb_spec (currentIndex (ui e)) 0) as [Hneg|Hpos].
    { injection Hcard as <-. discriminate. }
    split; [done|].
    destruct (Z.lt_ge_cases (currentIndex (ui e)) (Z.of_nat (length items)))
      as [|Hge]; [done|].
    rewrite nth_overflow in Hcard by lia. injection Hcard as <-. discriminate. }
  pose proof (request_frame "/users/review/record"
    (Api.post (VObj [("collectionId", cid); ("cardId", id);
                     ("rating", VNum (rating_number rating));
                     ("confidence", VUndefined);
                     ("questionType", VUndefined); ("timeSpent", VUndefined);
                     ("pronunciationScore", VUndefined)])) (world e))
    as (_ & _ & _ & Heff & _).
  unfold Api.recordCardReview in Hrec. rewrite Hrec in Heff. cbn [snd] in Heff.
  run_session. unfold get_prop, get_index.
  rewrite Hidle, Hcard, Hcards. cbn.
  destruct Hin as [Hpos Hlt].
  apply Z.leb_gt in Hlt as Hlt'. rewrite Hlt'.
  rewrite Hcid, Hid. unfold Api.recordCardReview. rewrite Hrec.
  destruct (Z.ltb_spec (currentIndex (ui e)) (Z.of_nat (length items) - 1))
    as [Hmore|Hlast]; cbn.
  - repeat split; try done; try lia. by destruct w1.
  - repeat split; try done; try lia.
    by rewrite Heff, <- List.app_assoc.
Qed.

(** C8. The session opens and the due-card fetch resolves with an empty
    list: the handler calls the completion callback at once (after the
    toast, before it returns), one request has been sent, and the state
    it leaves (loading over, no cards) renders nothing; while the fetch
    was in flight the component showed the loading card. *)
Theorem empty_due_list_completes
    (p : Props) (e : Env State) (response : value) (w1 : World) :
  Api.getCardsForReview (collectionId p) None (world e) = (Ok response, w1) ->
  prop response "cards" = Ok (VArr []) ->
  let '(r, e') := loadDueCards p e in
  r = Ok tt /\
  effects (world e')
  = effects (world e) ++ [ShowToast NO_CARDS "success"; OnComplete] /\
  length (sent (world e')) = S (length (sent (world e))) /\
  loading (ui e') = false /\
  cards (ui e') = VArr [] /\
  render (ui e') tt = (Ok Nothing, tt) /\
  exists f, frames e' = frames e ++ [f] /\ render f tt = (Ok LoadingCard, tt).
Proof.
  intros Hfetch Hcards.
  assert (effects w1 = effects (world e) /\
          length (sent w1) = S (length (sent (world e)))) as [Heff Hsent].
  { unfold Api.getCardsForReview in Hfetch.
    match type of Hfetch with
    | Api.request ?u ?o ?w = _ =>
        pose proof (request_frame u o w) as (Hs & _ & _ & He & _)
    end.
    rewrite Hfetch in Hs, He. cbn [snd] in Hs, He.
    split; [done|]. rewrite Hs, length_app. cbn. lia. }
  run_session. cbn. rewrite Hfetch. cbn. rewrite Hcards. cbn.
  change (Z.of_nat 0 =? 0)%Z with true. cbn.
  rewrite Heff, <- List.app_assoc.
  repeat split; try done. eexists. split; reflexivity.
Qed.

End ReviewSessionFacts.

Lemma rating_advances_or_completes_witness :
  let items := [Samples.card "k1" "serendipity"; Samples.card "k2" "ambitious"] in
  let w := Samples.browser (Samples.json_reply 200 "OK"
                              (VObj [("message", VStr "Review recorded")])) in
  let first := snd (dispatch (ReviewSession.handleRating ReviewSession.Again)
                      (Samples.screen w (Samples.reviewing_card items 0))) in
  let last := snd (dispatch (ReviewSession.handleRating ReviewSession.Good)
                     (Samples.screen w (Samples.reviewing_card items 1))) in
  (ReviewSession.currentIndex (ui first) = 1%Z /\
   ReviewSession.showAnswer (ui first) = false /\
   effects (world first) = []) /\
  effects (world last)
  = [ShowToast "Review session complete! 2 cards reviewed" "success"; OnComplete].
Proof.
  cbv zeta. split.
  - pose proof (rating_advances_or_completes ReviewSession.Again
      (Samples.screen
         (Samples.browser (Samples.json_reply 200 "OK"
                             (VObj [("message", VStr "Review recorded")])))
         (Samples.reviewing_card
            [Samples.card "k1" "serendipity"; Samples.card "k2" "ambitious"] 0))
      _ _ _ _ _ _ eq_refl eq_refl eq_refl eq_refl eq_refl eq_refl) as H.
    cbv zeta in H.
    destruct (dispatch (ReviewSession.handleRating ReviewSession.Again) _)
      as [r e'].
    destruct H as (_ & _ & _ & _ & _ & H & _). apply H. reflexivity.
  - pose proof (rating_advances_or_completes ReviewSession.Good
      (Samples.screen
         (Samples.browser (Samples.json_reply 200 "OK"
                             (VObj [("message", VStr "Review recorded")])))
         (Samples.reviewing_card
            [Samples.card "k1" "serendipity"; Samples.card "k2" "ambitious"] 1))
      _ _ _ _ _ _ eq_refl eq_refl eq_refl eq_refl eq_refl eq_refl) as H.
    cbv zeta in H.
    destruct (dispatch (ReviewSession.handleRating ReviewSession.Good) _)
      as [r e'].
    destruct H as (_ & _ & _ & _ & _ & _ & H).
    cbn [snd]. destruct (H eq_refl) as [_ ->]. reflexivity.
Defined.

Lemma empty_due_list_completes_witness :
  let w := Samples.browser (Samples.json_reply 200 "OK"
                              (VObj [("cards", VArr [])])) in
  let e' := snd (ReviewSession.loadDueCards Samples.all_collections
                   (Samples.screen w ReviewSession.initial)) in
  effects (world e') = [ShowToast ReviewSession.NO_CARDS "success"; OnComplete] /\
  ReviewSession.render (ui e') tt = (Ok ReviewSession.Nothing, tt).
Proof.
  cbv zeta.
  pose proof (empty_due_list_completes Samples.all_collections
    (Samples.screen
       (Samples.browser (Samples.json_reply 200 "OK" (VObj [("cards", VArr [])])))
       ReviewSession.initial)
    _ _ eq_refl eq_refl) as H.
  destruct (ReviewSession.loadDueCards Samples.all_collections _) as [r e'].
  destruct H as (_ & Heff & _ & _ & _ & Hrender & _).
  split; [exact Heff|exact Hrender].
Defined.

(** ** The root controller *)
Section AppFacts.
Import App.

Ltac run_app :=
  unfold dispatch, handleWordSubmit, handleMeaningSelect, handleWordLearned,
    browser_back, handleSwitchView, pushState, handlePopState,
    setView, setStep, setWord, setMeanings, setLearningCard, setLoading,
    setUser, setShowAuth;
  unfold_m.

(** The background sync after a generated card touches the user record
    only: it shows nothing and leaves step, card and loading flag. *)
Lemma word_learned_frame (lw lm : string) (c : State) (e : Env State) :
  let e' := snd (handleWordLearned lw lm c e) in
  step (ui e') = step (ui e) /\
  learningCard (ui e') = learningCard (ui e) /\
  loading (ui e') = loading (ui e) /\
  effects (world e') = effects (world e) /\
  (exists fs, frames e' = frames e ++ fs) /\
  (exists rs, sent (world e') = sent (world e) ++ rs).
Proof.
  pose proof (request_frame "/users/learn-word"
    (Api.post (VObj [("word", VStr lw); ("meaning", VStr lm);
                     ("difficulty", VUndefined)])) (world e))
    as (Hs1 & _ & _ & He1 & _).
  run_app. unfold Api.learnWord, Api.getProfile in *.
  destruct (isAuthenticated c && truthy (user c)); cbn.
  2:{ repeat split; try done; exists []; by rewrite app_nil_r. }
  destruct (Api.request "/users/learn-word" _ (world e)) as [[x|err] w1];
    cbn in *.
  2:{ repeat split; try done; eexists; done. }
  pose proof (request_frame "/users/profile" Api.no_options w1)
    as (Hs2 & _ & _ & He2 & _).
  destruct (Api.request "/users/profile" Api.no_options w1) as [[u|err] w2];
    cbn in *.
  - repeat split; try congruence.
    + eexists. by rewrite <- List.app_assoc.
    + eexists. by rewrite Hs2, Hs1, <- List.app_assoc.
  - repeat split; try congruence.
    + eexists. by rewrite <- List.app_assoc.
    + eexists. by rewrite Hs2, Hs1, <- List.app_assoc.
Qed.

(** C6, as the code has it. A meaning selection sets the loading flag
    (the controller renders with it while the request is in flight),
    calls [generateLearningCard] for the target word and the meaning, and
    clears the flag at the end. On success the card is stored and the
    step becomes 3. On failure an error toast is shown, the card is
    untouched and the step is left as it was: 2 when the selection came
    from the meaning-selection screen, 1 when the meaning came with the
    search submission. *)
Theorem meaning_selection_generates_card
    (meaning : string) (overrideWord : option string) (e : Env State) :
  let c := ui e in
  let targetWord := match overrideWord with Some o => o | None => word c end in
  let generation := Api.generateLearningCard targetWord meaning (world e) in
  let '(r, e') := dispatch (handleMeaningSelect meaning overrideWord) e in
  r = Ok tt /\
  (exists f fs, frames e' = frames e ++ f :: fs /\
                loading f = true /\ step f = step c) /\
  (exists rs,
     sent (world e')
     = sent (world e) ++
       Api.sends (world e) "/words/generate-learning-card"
         (Api.post (VObj [("word", VStr targetWord); ("meaning", VStr meaning)]))
       :: rs) /\
  loading (ui e') = false /\
  (forall d, fst generation = Ok d ->
     learningCard (ui e') = d /\ step (ui e') = 3%Z) /\
  (forall err, fst generation = Throw err ->
     step (ui e') = step c /\
     learningCard (ui e') = learningCard c /\
     effects (world e')
     = effects (world e) ++ [ShowToast GENERATE_FAILED "error"]).
Proof.
  cbv zeta.
  set (targetWord := match overrideWord with Some o => o | None => word (ui e) end).
  pose proof (request_frame "/words/generate-learning-card"
    (Api.post (VObj [("word", VStr targetWord); ("meaning", VStr meaning)]))
    (world e)) as (Hs & _ & _ & He & _).
  unfold dispatch, handleMeaningSelect. fold targetWord.
  unfold Api.generateLearningCard in *.
  unfold setLoading, setLearningCard, setStep. unfold_m. cbn.
  destruct (Api.request "/words/generate-learning-card" _ (world e))
    as [[d|err] w1]; cbn in *.
  - match goal with
    | |- context [handleWordLearned ?a ?b ?c ?x] =>
        pose proof (word_learned_frame a b c x)
          as (H1 & H2 & H3 & _ & [fs Hf] & [rs Hr]);
        destruct (handleWordLearned a b c x) as [r e']
    end.
    cbn in *. split; [done|]. split.
    { eexists _, fs. rewrite Hf, <- List.app_assoc. done. }
    split.
    { exists rs. by rewrite Hr, Hs, <- List.app_assoc. }
    split; [done|]. split; [|by intros ? [=]].
    intros ? [= <-]. done.
  - split; [done|]. split.
    { eexists _, []. done. }
    split.
    { exists []. done. }
    split; [done|]. split; [by intros ? [=]|].
    intros _ _. by rewrite He.
Qed.

(** C7. Views and URL paths correspond one to one. Switching to view
    [v] pushes its path ([/], [/collections], [/learning]) and shows
    [v]; the popstate handler run at that path restores exactly [v]; and
    the back button after the switch returns to the path the page was
    on and to the view of that path, the rest of the controller state
    being kept. In particular, from [/] to [/collections] and back
    restores the learn view at [/]. *)
Theorem view_url_round_trip (v : ViewName) (e : Env State) :
  let e1 := snd (handleSwitchView v e) in
  let e2 := snd (browser_back e1) in
  (nextPath learn = "/" /\ nextPath collections = "/collections" /\
   nextPath learning = "/learning") /\
  view_of_path (nextPath v) = v /\
  view (ui e1) = v /\
  history (world e1) = push_entry (nextPath v) (history (world e)) /\
  pathname (history (world e1)) = nextPath v /\
  (forall e0, pathname (history (world e0)) = nextPath v ->
              view (ui (snd (handlePopState e0))) = v) /\
  history (world e2) = {| behind := behind (history (world e));
                          pathname := pathname (history (world e));
                          ahead := nextPath v :: [] |} /\
  ui e2 = ui (snd (setView (view_of_path (pathname (history (world e)))) e)) /\
  (pathname (history (world e)) = "/" ->
   view (ui e2) = learn /\ pathname (history (world e2)) = "/").
Proof.
  cbv zeta. split; [done|]. split; [by destruct v|].
  split; [done|]. split; [done|]. split; [done|]. split.
  { intros e0 H. run_app. cbn. rewrite H. by destruct v. }
  run_app. cbn. unfold view_of_path.
  destruct (String.eqb_spec (pathname (history (world e))) "/collections") as [Hp|Hp];
    [|destruct (String.eqb_spec (pathname (history (world e))) "/learning") as [Hq|Hq]];
    cbn; rewrite ?Hp, ?Hq; cbn;
    try (destruct (String.eqb_spec (pathname (history (world e))) "/collections");
         [done|]);
    try (destruct (String.eqb_spec (pathname (history (world e))) "/learning");
         [done|]);
    cbn; (split; [done|]); (split; [done|]); intros H0; try done;
    rewrite H0 in *; done.
Qed.

End AppFacts.

(** C6 as stated fails when the meaning comes with the search
    submission: the controller is at step 1 and stays there when the
    generation fails. *)
Lemma failed_generation_stays_on_search :
  let e := Samples.screen (Samples.browser Samples.server_error)
             (Samples.controller App.learn 1) in
  let e' := snd (dispatch (App.handleWordSubmit "ambitious" (VArr [])
                             (Some "having a strong desire to succeed") None) e) in
  let e'' := snd (dispatch (App.handleMeaningSelect
                              "having a strong desire to succeed"
                              (Some "ambitious")) e) in
  fst (Api.generateLearningCard "ambitious" "having a strong desire to succeed"
         (world e))
  = Throw (Error "HTTP 500: Internal Server Error") /\
  effects (world e') = [ShowToast App.GENERATE_FAILED "error"] /\
  App.step (ui e') = 1%Z /\ App.step (ui e') <> 2%Z /\
  App.step (ui e'') = 1%Z /\ App.step (ui e'') <> 2%Z.
Proof.
  cbv zeta. vm_compute. repeat split; discriminate.
Qed.

Lemma meaning_selection_generates_card_witness :
  let e := Samples.screen (Samples.browser Samples.server_error)
             (Samples.controller App.learn 2) in
  let e' := snd (dispatch (App.handleMeaningSelect "a greeting" (Some "hello")) e) in
  App.step (ui e') = 2%Z /\
  effects (world e') = [ShowToast App.GENERATE_FAILED "error"].
Proof.
  cbv zeta.
  pose proof (meaning_selection_generates_card "a greeting" (Some "hello")
    (Samples.screen (Samples.browser Samples.server_error)
       (Samples.controller App.learn 2))) as H.
  cbv zeta in H.
  destruct (dispatch (App.handleMeaningSelect "a greeting" (Some "hello")) _)
    as [r e'].
  destruct H as (_ & _ & _ & _ & _ & H).
  destruct (H (Error "HTTP 500: Internal Server Error") eq_refl)
    as (Hstep & _ & Heff).
  split; [exact Hstep|exact Heff].
Defined.

Lemma view_url_round_trip_witness :
  let e := Samples.screen (Samples.browser Samples.not_found)
             (Samples.controller App.learn 1) in
  let e1 := snd (App.handleSwitchView App.collections e) in
  let e2 := snd (App.browser_back e1) in
  pathname (history (world e1)) = "/collections" /\
  App.view (ui e1) = App.collections /\
  pathname (history (world e2)) = "/" /\
  App.view (ui e2) = App.learn.
Proof.
  cbv zeta.
  pose proof (view_url_round_trip App.collections
    (Samples.screen (Samples.browser Samples.not_found)
       (Samples.controller App.learn 1)))
    as (_ & _ & Hv & _ & Hp & _ & _ & _ & Hback).
  destruct (Hback eq_refl) as [Hl Hq].
  repeat split; assumption.
Defined.

(* ===================================================================== *)
(** * Further properties of the API client *)
(* ===================================================================== *)

(** ** Reading a cookie back from the text of [document.cookie] *)
Section CookieText.

Lemma jar_tail_cons (c : string * string) (jar : list (string * string)) :
  jar_tail (c :: jar) = "; " +:+ (fst c +:+ "=" +:+ snd c) +:+ jar_tail jar.
Proof. apply document_cookie_cons. Qed.

Lemma jar_tail_app (l1 l2 : list (string * string)) :
  jar_tail (l1 ++ l2) = jar_tail l1 +:+ jar_tail l2.
Proof.
  induction l1 as [|c l1 IH]; [done|].
  change ((c :: l1) ++ l2) with (c :: (l1 ++ l2)).
  rewrite !jar_tail_cons, IH. by rewrite !str_app_assoc.
Qed.

Lemma split_go_cons (sep : string) (c : ascii) (t : string) :
  starts_with sep (String c t) = false ->
  split_go sep 0 (String c t) = prepend (String c "") (split_go sep 0 t).
Proof.
  intros H. cbn [split_go]. rewrite H. unfold prepend.
  destruct (split_go sep 0 t); reflexivity.
Qed.

(** A split text has at least one part. *)
Lemma split_go_parts (sep : string) (k : nat) (s : string) :
  exists p ps, split_go sep k s = p :: ps.
Proof.
  revert k. induction s as [|a s IH]; intros k; [by eexists _, _|].
  cbn [split_go]. destruct k as [|k]; [|apply IH].
  destruct (starts_with sep (String a s)); [by eexists _, _|].
  destruct (IH 0) as (p & ps & ->). by eexists _, _.
Qed.

Lemma prepend_empty (sep : string) (k : nat) (s : string) :
  prepend "" (split_go sep k s) = split_go sep k s.
Proof. by destruct (split_go_parts sep k s) as (p & ps & ->). Qed.

Lemma prepend_prepend (x y : string) (l : list string) :
  prepend x (prepend y l) = prepend (x +:+ y) l.
Proof. destruct l; cbn; by rewrite ?str_app_assoc. Qed.

(** Text without the first character of the separator is carried over
    to the first part. *)
Lemma split_go_skip (c : ascii) (sep x rest : string) :
  mem_ascii c x = false ->
  split_go (String c sep) 0 (x +:+ rest)
  = prepend x (split_go (String c sep) 0 rest).
Proof.
  induction x as [|a x IH]; intros Hx.
  - by rewrite str_app_nil, prepend_empty.
  - rewrite mem_ascii_cons in Hx. apply orb_false_elim in Hx as [Hca Hx].
    rewrite str_app_cons, split_go_cons.
    + rewrite (IH Hx), prepend_prepend. reflexivity.
    + cbn [starts_with]. by rewrite Hca.
Qed.

(** Characters that are being passed over are dropped. *)
Lemma split_go_pass (sep x rest : string) :
  split_go sep (String.length x) (x +:+ rest) = split_go sep 0 rest.
Proof.
  induction x as [|a x IH]; [done|].
  rewrite str_app_cons. cbn [String.length split_go]. exact IH.
Qed.

(** At an occurrence of the separator a new part begins. *)
Lemma split_go_match (sep rest : string) :
  sep <> "" ->
  split_go sep 0 (sep +:+ rest) = "" :: split_go sep 0 rest.
Proof.
  intros Hne. destruct sep as [|a sep]; [done|].
  pose proof (starts_with_app (String a sep) rest) as Hm.
  rewrite str_app_cons in *. cbn [split_go]. rewrite Hm.
  replace (String.length (String a sep) - 1) with (String.length sep)
    by (cbn [String.length]; lia).
  by rewrite split_go_pass.
Qed.

Variable name : string.
Hypothesis name_no_eq : mem_ascii "=" name = false.

Let sep : string := "; " +:+ name +:+ "=".

(** A cookie of another name is carried over to the first part. *)
Lemma split_go_cookie (c : string * string) (rest : string) :
  cookie_wf c = true -> fst c <> name ->
  split_go sep 0 ("; " +:+ (fst c +:+ "=" +:+ snd c) +:+ rest)
  = prepend ("; " +:+ fst c +:+ "=" +:+ snd c) (split_go sep 0 rest).
Proof.
  intros Hwf Hne. destruct c as [n v]. cbn [fst snd] in *.
  unfold cookie_wf in Hwf. cbn [fst snd] in Hwf.
  apply andb_prop in Hwf as [Hwf Hv]. apply andb_prop in Hwf as [Hn1 Hn2].
  apply negb_true_iff in Hv, Hn1, Hn2.
  subst sep. rewrite !str_app_cons, !str_app_nil.
  rewrite split_go_cons.
  2:{ cbn [starts_with]. rewrite !Ascii.eqb_refl.
      destruct (starts_with (name +:+ "=") ((n +:+ String "=" v) +:+ rest)) eqn:E;
        [|done].
      rewrite str_app_assoc, str_app_cons in E.
      change (String "=" (v +:+ rest)) with ("=" +:+ v +:+ rest) in E.
      apply starts_with_name in E; done. }
  rewrite split_go_cons by reflexivity.
  rewrite (split_go_skip ";" (String " " (name +:+ "=")) (n +:+ String "=" v)).
  2:{ rewrite mem_ascii_app, mem_ascii_cons, Hn1, Hv. reflexivity. }
  rewrite !prepend_prepend. reflexivity.
Qed.

Lemma split_go_cookies (l : list (string * string)) (rest : string) :
  jar_wf l = true -> Forall (fun c => fst c <> name) l ->
  split_go sep 0 (jar_tail l +:+ rest)
  = prepend (jar_tail l) (split_go sep 0 rest).
Proof.
  induction l as [|c l IH]; intros Hwf Hall.
  - cbn [jar_tail]. by rewrite str_app_nil, prepend_empty.
  - cbn [jar_wf forallb] in Hwf. apply andb_prop in Hwf as [Hc Hwf].
    inversion Hall as [|? ? Hne Hall']; subst.
    rewrite jar_tail_cons.
    rewrite (str_app_assoc "; "), (str_app_assoc (fst c +:+ "=" +:+ snd c)).
    rewrite split_go_cookie by done.
    rewrite (IH Hwf Hall'), prepend_prepend.
    by rewrite (str_app_assoc "; ").
Qed.

(** The one cookie called [name] is what [getCookie] returns, unless its
    value is empty. *)
Lemma read_cookie_found (v : string) (l1 l2 : list (string * string)) :
  jar_wf (l1 ++ (name, v) :: l2) = true ->
  Forall (fun c => fst c <> name) l1 ->
  Forall (fun c => fst c <> name) l2 ->
  Api.read_cookie name (l1 ++ (name, v) :: l2)
  = if String.eqb v "" then None else Some v.
Proof.
  intros Hwf H1 H2.
  unfold jar_wf in Hwf. rewrite forallb_app in Hwf.
  apply andb_prop in Hwf as [Hwf1 Hwf2]. cbn [forallb] in Hwf2.
  apply andb_prop in Hwf2 as [Hc Hwf2].
  unfold cookie_wf in Hc. cbn [fst snd] in Hc.
  apply andb_prop in Hc as [_ Hv]. apply negb_true_iff in Hv.
  assert (Htext : "; " +:+ document_cookie (l1 ++ (name, v) :: l2)
                  = jar_tail l1 +:+ sep +:+ v +:+ jar_tail l2).
  { assert (Hnonempty : jar_tail (l1 ++ (name, v) :: l2)
                          = "; " +:+ document_cookie (l1 ++ (name, v) :: l2))
      by (by destruct l1).
    rewrite <- Hnonempty, jar_tail_app, jar_tail_cons. cbn [fst snd].
    subst sep. by rewrite !str_app_assoc. }
  unfold Api.read_cookie. rewrite Htext. fold sep. unfold split.
  rewrite (split_go_cookies l1 _ Hwf1 H1).
  rewrite split_go_match by (subst sep; done).
  assert (Hrest : split_go sep 0 (v +:+ jar_tail l2) = [v +:+ jar_tail l2]).
  { apply split_absent. subst sep.
    rewrite !str_app_cons, !str_app_nil.
    rewrite includes_skip by done.
    pose proof (jar_tail_no_match name name_no_eq l2 Hwf2 H2) as Hno.
    by rewrite !str_app_cons, !str_app_nil in Hno. }
  rewrite Hrest. cbn [prepend length Nat.eqb last].
  rewrite (split_go_skip ";" "" v (jar_tail l2) Hv).
  assert (Hhd : exists ps, prepend v (split_go ";" 0 (jar_tail l2)) = v :: ps).
  { destruct l2 as [|d l2].
    - exists []. cbn. by rewrite str_app_nil_r.
    - rewrite jar_tail_cons, !str_app_cons. cbn [split_go starts_with].
      rewrite Ascii.eqb_refl. eexists. cbn. by rewrite str_app_nil_r. }
  destruct Hhd as [ps ->]. reflexivity.
Qed.

End CookieText.

(** ** The jar behind the cookie text *)
Section Jar.

Lemma jar_lookup_none (name : string) (jar : list (string * string)) :
  jar_lookup name jar = None -> Forall (fun c => fst c <> name) jar.
Proof.
  induction jar as [|[n v] jar IH]; intros H; [constructor|].
  cbn [jar_lookup] in H. destruct (String.eqb_spec n name); [done|].
  constructor; auto.
Qed.

Lemma jar_lookup_some (name v : string) (jar : list (string * string)) :
  NoDup (map fst jar) -> jar_lookup name jar = Some v ->
  exists l1 l2, jar = l1 ++ (name, v) :: l2 /\
                Forall (fun c => fst c <> name) l1 /\
                Forall (fun c => fst c <> name) l2.
Proof.
  induction jar as [|[n x] jar IH]; intros Hnd H; [done|].
  cbn [map fst] in Hnd. apply NoDup_cons in Hnd as [Hn Hnd].
  cbn [jar_lookup] in H. destruct (String.eqb_spec n name) as [->|Hne].
  - injection H as ->. exists [], jar. split; [done|]. split; [constructor|].
    apply Forall_forall. intros c Hc Heq. apply Hn.
    apply list_elem_of_In, in_map_iff. exists c. split; [done|].
    by apply list_elem_of_In.
  - destruct (IH Hnd H) as (l1 & l2 & -> & H1 & H2).
    exists ((n, x) :: l1), l2. split; [done|]. split; [|done].
    constructor; done.
Qed.

Lemma jar_lookup_put (n name v : string) (jar : list (string * string)) :
  jar_lookup n (jar_put name v jar)
  = if String.eqb name n then Some v else jar_lookup n jar.
Proof.
  induction jar as [|[m x] jar IH]; cbn [jar_put jar_lookup].
  - reflexivity.
  - destruct (String.eqb_spec m name) as [->|Hm]; cbn [jar_lookup].
    + by destruct (String.eqb_spec name n).
    + rewrite IH. destruct (String.eqb_spec m n) as [->|]; [|done].
      by destruct (String.eqb_spec name n).
Qed.

Lemma jar_lookup_remove (n name : string) (jar : list (string * string)) :
  jar_lookup n (jar_remove name jar)
  = if String.eqb name n then None else jar_lookup n jar.
Proof.
  unfold jar_remove.
  induction jar as [|[m x] jar IH]; cbn [List.filter jar_lookup fst].
  - by destruct (String.eqb name n).
  - destruct (String.eqb_spec m name) as [->|Hm]; cbn [negb jar_lookup].
    + rewrite IH. by destruct (String.eqb_spec name n).
    + rewrite IH. destruct (String.eqb_spec m n) as [->|]; [|done].
      by destruct (String.eqb_spec name n).
Qed.

Lemma jar_put_names (name v : string) (jar : list (string * string)) (c : string * string) :
  c ∈ jar_put name v jar -> c = (name, v) \/ c ∈ jar.
Proof.
  induction jar as [|[m x] jar IH]; cbn [jar_put].
  - intros H. apply list_elem_of_singleton in H. by left.
  - destruct (String.eqb_spec m name) as [->|Hm]; intros H.
    + apply elem_of_cons in H as [->|H]; [by left|].
      right. by apply elem_of_cons; right.
    + apply elem_of_cons in H as [->|H].
      * right. apply elem_of_cons. by left.
      * destruct (IH H) as [->|H']; [by left|].
        right. apply elem_of_cons. by right.
Qed.

Lemma jar_put_nodup (name v : string) (jar : list (string * string)) :
  NoDup (map fst jar) -> NoDup (map fst (jar_put name v jar)).
Proof.
  induction jar as [|[m x] jar IH]; cbn [jar_put map fst]; intros Hnd.
  - apply NoDup_singleton.
  - apply NoDup_cons in Hnd as [Hm Hnd].
    destruct (String.eqb_spec m name) as [->|Hne]; cbn [map fst].
    + by apply NoDup_cons.
    + apply NoDup_cons. split; [|by apply IH].
      intros Hin. apply list_elem_of_In, in_map_iff in Hin as ([m' x'] & E & Hin).
      cbn in E. subst m'. apply list_elem_of_In, jar_put_names in Hin as [[= -> _]|Hin];
        [done|].
      apply Hm, list_elem_of_In, in_map_iff. exists (m, x'). split; [done|].
      by apply list_elem_of_In.
Qed.

Lemma jar_put_wf (name v : string) (jar : list (string * string)) :
  cookie_wf (name, v) = true -> jar_wf jar = true ->
  jar_wf (jar_put name v jar) = true.
Proof.
  intros Hc. unfold jar_wf.
  induction jar as [|[m x] jar IH]; cbn [jar_put forallb]; intros Hwf.
  - by rewrite Hc.
  - apply andb_prop in Hwf as [Hm Hwf].
    destruct (String.eqb m name); cbn [forallb].
    + by rewrite Hc, Hwf.
    + by rewrite Hm, IH.
Qed.

Lemma jar_remove_nodup (name : string) (jar : list (string * string)) :
  NoDup (map fst jar) -> NoDup (map fst (jar_remove name jar)).
Proof.
  unfold jar_remove.
  induction jar as [|[m x] jar IH]; cbn [List.filter map fst]; intros Hnd;
    [done|].
  apply NoDup_cons in Hnd as [Hm Hnd].
  destruct (negb (String.eqb m name)); cbn [map fst]; [|by apply IH].
  apply NoDup_cons. split; [|by apply IH].
  intros Hin. apply Hm.
  apply list_elem_of_In, in_map_iff in Hin as (c & E & Hin).
  apply filter_In in Hin as [Hin _].
  apply list_elem_of_In, in_map_iff. by exists c.
Qed.

(** What [getCookie] makes of the text, in terms of the jar. *)
Lemma read_cookie_jar (name : string) (jar : list (string * string)) :
  jar_wf jar = true ->
  NoDup (map fst jar) ->
  mem_ascii "=" name = false ->
  Api.read_cookie name jar
  = match jar_lookup name jar with
    | Some v => if String.eqb v "" then None else Some v
    | None => None
    end.
Proof.
  intros Hwf Hnd Hname.
  destruct (jar_lookup name jar) as [v|] eqn:E.
  - destruct (jar_lookup_some name v jar Hnd E) as (l1 & l2 & Hjar & H1 & H2).
    rewrite Hjar in *. by apply read_cookie_found.
  - apply read_cookie_absent; [done..|]. by apply jar_lookup_none.
Qed.

End Jar.

(** X1. [getCookie] recovers from the text of [document.cookie] exactly
    what the jar holds: for a well-formed jar with one cookie per name
    and a name without [=], it returns the value stored under the name,
    and [null] when there is no such cookie or its value is empty. *)
Theorem getCookie_reads_jar (name : string) (w : World) :
  jar_wf (cookies w) = true ->
  NoDup (map fst (cookies w)) ->
  mem_ascii "=" name = false ->
  Api.getCookie name w
  = (Ok (match jar_lookup name (cookies w) with
         | Some v => if String.eqb v "" then None else Some v
         | None => None
         end), w).
Proof.
  intros Hwf Hnd Hname. unfold Api.getCookie. unfold_m.
  by rewrite read_cookie_jar.
Qed.

(** ** Tokens *)
Section Tokens.

Lemma mem_stripStart (blank : ascii -> bool) (c : ascii) (s : string) :
  mem_ascii c s = false -> mem_ascii c (stripStart blank s) = false.
Proof.
  induction s as [|a s IH]; intros H; [done|].
  cbn [stripStart]. destruct (blank a); [|done].
  rewrite mem_ascii_cons in H. apply orb_false_elim in H as [_ H]. auto.
Qed.

Lemma mem_stripEnd (blank : ascii -> bool) (c : ascii) (s : string) :
  mem_ascii c s = false -> mem_ascii c (stripEnd blank s) = false.
Proof.
  induction s as [|a s IH]; intros H; [done|].
  rewrite mem_ascii_cons in H. apply orb_false_elim in H as [Ha H].
  cbn [stripEnd]. specialize (IH H).
  destruct (stripEnd blank s) as [|b t].
  - destruct (blank a); [done|]. by rewrite mem_ascii_cons, Ha.
  - by rewrite mem_ascii_cons, Ha.
Qed.

(** The first part of a text split at [c] has no [c]. *)
Lemma split_head_clean (c : ascii) (s : string) :
  mem_ascii c (hd "" (split s (String c ""))) = false.
Proof.
  unfold split. induction s as [|a s IH]; [done|].
  cbn [split_go starts_with].
  destruct (Ascii.eqb c a) eqn:E; [done|].
  destruct (split_go_parts (String c "") 0 s) as (p & ps & Hp).
  rewrite Hp in *. cbn [hd] in *. by rewrite mem_ascii_cons, E.
Qed.

(** What the jar keeps of a token. *)
Lemma stored_token_wf (token : string) :
  cookie_wf (Api.COOKIE_NAME, strip is_space (hd "" (split token ";"))) = true.
Proof.
  unfold cookie_wf. cbn [fst snd].
  replace (mem_ascii ";" Api.COOKIE_NAME) with false by reflexivity.
  replace (mem_ascii "=" Api.COOKIE_NAME) with false by reflexivity.
  cbn [negb andb]. apply negb_true_iff.
  apply mem_stripEnd, mem_stripStart, split_head_clean.
Qed.

Lemma setToken_run (token : string) (w : World) :
  Api.setToken token w
  = (Ok tt, with_cookies
              (jar_put Api.COOKIE_NAME (strip is_space (hd "" (split token ";")))
                 (cookies w)) w).
Proof. reflexivity. Qed.

Lemma removeToken_run (w : World) :
  Api.removeToken w
  = (Ok tt, with_cookies (jar_remove Api.COOKIE_NAME (cookies w)) w).
Proof.
  unfold Api.removeToken, Api.deleteCookie. unfold_m.
  unfold assign_cookie, expired.
  replace (0 <=? now w)%N with true by (symmetry; apply N.leb_le; lia).
  reflexivity.
Qed.

End Tokens.

(** The jars of the sample browsers hold one cookie per name. *)
Lemma browser_jar_nodup (r : Reply) :
  NoDup (map fst (cookies (Samples.browser r))).
Proof.
  cbn. apply NoDup_cons. split; [|apply NoDup_singleton].
  rewrite not_elem_of_cons. split; [discriminate|apply not_elem_of_nil].
Qed.

Lemma guest_jar_nodup (srv : list Request -> Reply) :
  NoDup (map fst (cookies (Samples.guest_browser srv))).
Proof. cbn. apply NoDup_singleton. Qed.

(** X2. After [setToken] with a token that has no [;], no blank at
    either end and is not empty, [getToken] returns that token,
    [isAuthenticated()] is true, and every request made without headers
    of its own carries [Authorization: Bearer <token>]. *)
Theorem setToken_authenticates (token : string) (w : World) :
  jar_wf (cookies w) = true ->
  NoDup (map fst (cookies w)) ->
  mem_ascii ";" token = false ->
  strip is_space token = token ->
  token <> "" ->
  let w' := snd (Api.setToken token w) in
  Api.getToken w' = (Ok (Some token), w') /\
  Api.isAuthenticated w' = (Ok true, w') /\
  forall endpoint options,
    Api.o_headers options = None ->
    headers (Api.sends w' endpoint options)
    = [("Content-Type", "application/json");
       ("Authorization", "Bearer " +:+ token)].
Proof.
  intros Hwf Hnd Hclean Htrim Hne. cbv zeta.
  rewrite setToken_run. cbn [snd].
  assert (Hstored : strip is_space (hd "" (split token ";")) = token).
  { rewrite split_absent by exact Hclean. exact Htrim. }
  rewrite Hstored.
  assert (Hread : Api.read_cookie Api.COOKIE_NAME
                    (jar_put Api.COOKIE_NAME token (cookies w)) = Some token).
  { rewrite read_cookie_jar.
    - rewrite jar_lookup_put, String.eqb_refl.
      by apply String.eqb_neq in Hne as ->.
    - apply jar_put_wf; [|done]. rewrite <- Hstored. apply stored_token_wf.
    - by apply jar_put_nodup.
    - reflexivity. }
  unfold Api.isAuthenticated, Api.getToken, Api.getCookie, Api.sends.
  unfold_m. cbn [cookies with_cookies]. rewrite Hread.
  split; [done|]. split; [done|].
  intros endpoint options Hh. cbn. unfold Api.config_headers. by rewrite Hh.
Qed.

Lemma setToken_authenticates_witness :
  let w := snd (Api.setToken "abc.def.ghi"
                  (Samples.guest_browser (fun _ => Samples.not_found))) in
  fst (Api.isAuthenticated w) = Ok true /\
  headers (Api.sends w "/users/profile" Api.no_options)
  = [("Content-Type", "application/json");
     ("Authorization", "Bearer abc.def.ghi")].
Proof.
  cbv zeta.
  pose proof (setToken_authenticates "abc.def.ghi"
    (Samples.guest_browser (fun _ => Samples.not_found))
    eq_refl (guest_jar_nodup _) eq_refl eq_refl
    ltac:(discriminate)) as (_ & Hauth & Hhead).
  split.
  - by rewrite Hauth.
  - by apply Hhead.
Defined.

Lemma getCookie_reads_jar_witness :
  let w := Samples.browser Samples.not_found in
  fst (Api.getCookie "theme" w) = Ok (Some "dark") /\
  fst (Api.getCookie "lang" w) = Ok None.
Proof.
  cbv zeta. split.
  - rewrite (getCookie_reads_jar "theme" (Samples.browser Samples.not_found)
               eq_refl (browser_jar_nodup _) eq_refl).
    reflexivity.
  - rewrite (getCookie_reads_jar "lang" (Samples.browser Samples.not_found)
               eq_refl (browser_jar_nodup _) eq_refl).
    reflexivity.
Defined.

(** X3. Storing or removing the token keeps the jar well formed with one
    cookie per name, and leaves every other cookie readable with the
    value it had. *)
Theorem token_changes_keep_other_cookies (n token : string) (w : World) :
  jar_wf (cookies w) = true ->
  NoDup (map fst (cookies w)) ->
  mem_ascii "=" n = false ->
  n <> Api.COOKIE_NAME ->
  let stored := snd (Api.setToken token w) in
  let removed := snd (Api.removeToken w) in
  fst (Api.getCookie n stored) = fst (Api.getCookie n w) /\
  fst (Api.getCookie n removed) = fst (Api.getCookie n w) /\
  jar_wf (cookies stored) = true /\ NoDup (map fst (cookies stored)) /\
  jar_wf (cookies removed) = true /\ NoDup (map fst (cookies removed)).
Proof.
  intros Hwf Hnd Hn Hne. cbv zeta.
  rewrite setToken_run, removeToken_run. cbn [snd].
  assert (Hwf1 := jar_put_wf _ _ _ (stored_token_wf token) Hwf).
  assert (Hnd1 := jar_put_nodup Api.COOKIE_NAME
                    (strip is_space (hd "" (split token ";"))) _ Hnd).
  assert (Hwf2 := jar_remove_wf Api.COOKIE_NAME _ Hwf).
  assert (Hnd2 := jar_remove_nodup Api.COOKIE_NAME _ Hnd).
  unfold Api.getCookie. unfold_m. cbn [fst cookies with_cookies].
  rewrite !read_cookie_jar by done.
  rewrite jar_lookup_put, jar_lookup_remove.
  assert (String.eqb Api.COOKIE_NAME n = false) as ->
    by (apply String.eqb_neq; congruence).
  repeat split; done.
Qed.

Lemma token_changes_keep_other_cookies_witness :
  let w := Samples.browser Samples.not_found in
  fst (Api.getCookie "theme" (snd (Api.setToken "new.token" w))) = Ok (Some "dark") /\
  fst (Api.getCookie "theme" (snd (Api.removeToken w))) = Ok (Some "dark").
Proof.
  cbv zeta.
  pose proof (token_changes_keep_other_cookies "theme" "new.token"
    (Samples.browser Samples.not_found)
    eq_refl (browser_jar_nodup _) eq_refl ltac:(discriminate))
    as (H1 & H2 & _).
  split.
  - rewrite H1. reflexivity.
  - rewrite H2. reflexivity.
Defined.

(** ** The request helper: what it never does *)

(** X4. A call of [request] sends exactly one request, to the base URL
    followed by the endpoint with the method and body it was given,
    whatever the reply (there is no retry); it leaves the word cache,
    local storage, history and effects alone, and changes the cookie jar
    only when the reply has status 401. *)
Theorem request_sends_once
    (endpoint : string) (options : Api.RequestInit) (w : World) :
  let w' := snd (Api.request endpoint options w) in
  (exists r, sent w' = sent w ++ [r] /\
             url r = baseURL w +:+ endpoint /\
             method r = Api.o_method options /\
             body r = Api.o_body options) /\
  wordCache w' = wordCache w /\
  localStorage w' = localStorage w /\
  history w' = history w /\
  effects w' = effects w /\
  (cookies w' = cookies w \/
   (exists resp, outcome (Api.reply w endpoint options) = Resolved resp /\
                 status resp = 401%Z) /\
   cookies w' = jar_remove Api.COOKIE_NAME (cookies w)).
Proof.
  cbv zeta.
  pose proof (request_frame endpoint options w)
    as (Hsent & Hcache & Hls & Heff & Hhist & _).
  split; [by eexists|]. repeat (split; [done|]).
  destruct (outcome (Api.reply w endpoint options)) as [resp|e] eqn:H.
  - destruct (ok resp) eqn:Hok.
    + rewrite (request_ok _ _ _ resp H Hok). by left.
    + destruct (Z.eq_dec (status resp) 401%Z) as [E1|E1].
      { rewrite (request_unauthorized _ _ _ resp H E1). right.
        split; [by exists resp|done]. }
      destruct (Z.eq_dec (status resp) 429%Z) as [E2|E2].
      { rewrite (request_quota _ _ _ resp H E2). by left. }
      rewrite (request_failed _ _ _ resp H Hok E1 E2). by left.
  - rewrite (request_rejected _ _ _ e H). by left.
Qed.

(** X5. [request] never rejects with anything but an [Error]: a value
    thrown by [fetch] that is no [Error] is replaced by the network
    error, and an [Error] thrown by [fetch] is passed on as it is. *)
Theorem request_rejects_with_error
    (endpoint : string) (options : Api.RequestInit) (w : World) :
  (forall v, fst (Api.request endpoint options w) <> Throw (Thrown v)) /\
  (forall v, outcome (Api.reply w endpoint options) = Rejected (Thrown v) ->
             fst (Api.request endpoint options w) = Throw (Error "Network error")) /\
  (forall m, outcome (Api.reply w endpoint options) = Rejected (Error m) ->
             fst (Api.request endpoint options w) = Throw (Error m)).
Proof.
  split; [|split].
  - intros v.
    destruct (outcome (Api.reply w endpoint options)) as [resp|e] eqn:H.
    + destruct (ok resp) eqn:Hok.
      * rewrite (request_ok _ _ _ resp H Hok). cbn [fst]. unfold Api.payload.
        destruct (contentType resp) as [ct|]; [|done].
        destruct (negb (String.eqb ct "") && includes ct "application/json");
          [|done].
        by destruct (jsonBody resp).
      * destruct (Z.eq_dec (status resp) 401%Z) as [E1|E1].
        { by rewrite (request_unauthorized _ _ _ resp H E1). }
        destruct (Z.eq_dec (status resp) 429%Z) as [E2|E2].
        { by rewrite (request_quota _ _ _ resp H E2). }
        by rewrite (request_failed _ _ _ resp H Hok E1 E2).
    + rewrite (request_rejected _ _ _ e H). by destruct e.
  - intros v H. by rewrite (request_rejected _ _ _ _ H).
  - intros m H. by rewrite (request_rejected _ _ _ _ H).
Qed.

(** X6. The body of a 2xx response is parsed only under a JSON content
    type: without a content type, or with one that does not mention
    [application/json], the call resolves with the empty object whatever
    the body is; under a JSON content type a body that does not parse
    makes the call reject although the status is 2xx. *)
Theorem success_body_handling
    (endpoint : string) (options : Api.RequestInit) (w : World)
    (resp : Response) :
  outcome (Api.reply w endpoint options) = Resolved resp ->
  ok resp = true ->
  (contentType resp = None ->
   fst (Api.request endpoint options w) = Ok (VObj [])) /\
  (forall ct, contentType resp = Some ct ->
     includes ct "application/json" = false ->
     fst (Api.request endpoint options w) = Ok (VObj [])) /\
  (forall ct, contentType resp = Some ct ->
     includes ct "application/json" = true ->
     fst (Api.request endpoint options w)
     = match jsonBody resp with
       | Some v => Ok v
       | None => Throw (Error "Unexpected token in JSON")
       end).
Proof.
  intros H Hok. rewrite (request_ok _ _ _ resp H Hok). cbn [fst].
  unfold Api.payload. split; [by intros ->|]. split.
  - intros ct -> ->. by rewrite andb_false_r.
  - intros ct -> Hinc. rewrite Hinc.
    assert (ct <> "") as Hne by (intros ->; discriminate).
    apply String.eqb_neq in Hne as ->. reflexivity.
Qed.

Lemma success_body_handling_witness :
  let plain := {| latency := 30;
                  outcome := Resolved {| status := 204; statusText := "No Content";
                                         contentType := None;
                                         jsonBody := Some (VStr "ignored") |} |} in
  fst (Api.request "/users/collections/c1" Api.no_options
         (Samples.browser plain)) = Ok (VObj []).
Proof.
  cbv zeta.
  pose proof (success_body_handling "/users/collections/c1" Api.no_options
    (Samples.browser
       {| latency := 30;
          outcome := Resolved {| status := 204; statusText := "No Content";
                                 contentType := None;
                                 jsonBody := Some (VStr "ignored") |} |})
    _ eq_refl eq_refl) as (H & _).
  by apply H.
Defined.

(** ** Signing in *)

(** X7. When the login (or registration) request resolves with a
    response whose [token] is a clean non-empty string, the call
    resolves with that response and the token is stored: [getToken]
    returns it and [isAuthenticated()] is true afterwards. *)
Theorem login_stores_token
    (data response : value) (token : string) (w w1 : World) :
  jar_wf (cookies w) = true ->
  NoDup (map fst (cookies w)) ->
  prop response "token" = Ok (VStr token) ->
  mem_ascii ";" token = false ->
  strip is_space token = token ->
  token <> "" ->
  (Api.request "/users/login" (Api.post data) w = (Ok response, w1) ->
   let '(r, w') := Api.login data w in
   r = Ok response /\
   Api.getToken w' = (Ok (Some token), w') /\
   Api.isAuthenticated w' = (Ok true, w')) /\
  (Api.request "/users/register" (Api.post data) w = (Ok response, w1) ->
   let '(r, w') := Api.register data w in
   r = Ok response /\
   Api.getToken w' = (Ok (Some token), w') /\
   Api.isAuthenticated w' = (Ok true, w')).
Proof.
  intros Hwf Hnd Htok Hclean Htrim Hne.
  assert (Hkept : forall endpoint,
    Api.request endpoint (Api.post data) w = (Ok response, w1) ->
    cookies w1 = cookies w).
  { intros endpoint Hreq.
    pose proof (request_frame endpoint (Api.post data) w) as Hf.
    destruct (outcome (Api.reply w endpoint (Api.post data))) as [resp|e] eqn:H.
    - destruct (ok resp) eqn:Hok.
      + rewrite (request_ok _ _ _ resp H Hok) in Hreq. by injection Hreq as _ <-.
      + destruct (Z.eq_dec (status resp) 401%Z) as [E1|E1].
        { by rewrite (request_unauthorized _ _ _ resp H E1) in Hreq. }
        destruct (Z.eq_dec (status resp) 429%Z) as [E2|E2].
        { by rewrite (request_quota _ _ _ resp H E2) in Hreq. }
        by rewrite (request_failed _ _ _ resp H Hok E1 E2) in Hreq.
    - rewrite (request_rejected _ _ _ e H) in Hreq. by destruct e. }
  assert (Hafter : forall endpoint,
    Api.request endpoint (Api.post data) w = (Ok response, w1) ->
    let w' := snd (Api.setToken token w1) in
    Api.getToken w' = (Ok (Some token), w') /\
    Api.isAuthenticated w' = (Ok true, w')).
  { intros endpoint Hreq. cbv zeta.
    rewrite setToken_run. cbn [snd].
    rewrite (split_absent token ";" Hclean). cbn [hd]. rewrite Htrim.
    assert (Hread : Api.read_cookie Api.COOKIE_NAME
                      (jar_put Api.COOKIE_NAME token (cookies w1)) = Some token).
    { rewrite (Hkept endpoint Hreq). rewrite read_cookie_jar.
      - rewrite jar_lookup_put, String.eqb_refl.
        by apply String.eqb_neq in Hne as ->.
      - apply jar_put_wf; [|done].
        pose proof (stored_token_wf token) as Hs.
        rewrite (split_absent token ";" Hclean) in Hs. cbn [hd] in Hs.
        by rewrite Htrim in Hs.
      - by apply jar_put_nodup.
      - reflexivity. }
    unfold Api.isAuthenticated, Api.getToken, Api.getCookie. unfold_m.
    cbn [cookies with_cookies]. by rewrite Hread. }
  assert (Htruthy : truthy (VStr token) = true).
  { cbn. by apply String.eqb_neq in Hne as ->. }
  split; intros Hreq.
  - pose proof (Hafter _ Hreq) as Ha. cbv zeta in Ha.
    unfold Api.login. unfold_m. rewrite Hreq, Htok, Htruthy.
    rewrite setToken_run in *. exact (conj eq_refl Ha).
  - pose proof (Hafter _ Hreq) as Ha. cbv zeta in Ha.
    unfold Api.register. unfold_m. rewrite Hreq, Htok, Htruthy.
    rewrite setToken_run in *. exact (conj eq_refl Ha).
Qed.

Lemma login_stores_token_witness :
  let response := VObj [("token", VStr "abc.def.ghi");
                        ("user", VObj [("username", VStr "ada")])] in
  let w := Samples.guest_browser (fun _ => Samples.json_reply 200 "OK" response) in
  let credentials := VObj [("email", VStr "ada@example.org");
                           ("password", VStr "secret")] in
  fst (Api.isAuthenticated w) = Ok false /\
  fst (Api.isAuthenticated (snd (Api.login credentials w))) = Ok true.
Proof.
  cbv zeta. split; [reflexivity|].
  pose proof (login_stores_token
    (VObj [("email", VStr "ada@example.org"); ("password", VStr "secret")])
    (VObj [("token", VStr "abc.def.ghi");
           ("user", VObj [("username", VStr "ada")])])
    "abc.def.ghi"
    (Samples.guest_browser
       (fun _ => Samples.json_reply 200 "OK"
                   (VObj [("token", VStr "abc.def.ghi");
                          ("user", VObj [("username", VStr "ada")])])))
    (snd (Api.request "/users/login"
            (Api.post (VObj [("email", VStr "ada@example.org");
                             ("password", VStr "secret")]))
            (Samples.guest_browser
               (fun _ => Samples.json_reply 200 "OK"
                           (VObj [("token", VStr "abc.def.ghi");
                                  ("user", VObj [("username", VStr "ada")])])))))
    eq_refl (guest_jar_nodup _) eq_refl eq_refl eq_refl
    ltac:(discriminate)) as [H _].
  specialize (H eq_refl).
  destruct (Api.login _ _) as [r w']. destruct H as (_ & _ & H).
  cbn [snd]. by rewrite H.
Defined.

(** X8. A login or registration whose request rejects rejects in the
    same way and stores nothing; one that resolves with a response
    without a truthy [token] resolves and stores nothing either. In both
    cases the jar is as the request left it. *)
Theorem login_without_token_stores_nothing (data : value) (w : World) :
  let requested := Api.request "/users/login" (Api.post data) w in
  let registered := Api.request "/users/register" (Api.post data) w in
  (forall e, fst requested = Throw e -> Api.login data w = requested) /\
  (forall e, fst registered = Throw e -> Api.register data w = registered) /\
  (forall response token,
     fst requested = Ok response -> prop response "token" = Ok token ->
     truthy token = false -> Api.login data w = requested) /\
  (forall response token,
     fst registered = Ok response -> prop response "token" = Ok token ->
     truthy token = false -> Api.register data w = registered).
Proof.
  cbv zeta. unfold Api.login, Api.register. unfold_m.
  repeat split.
  - intros e H.
    destruct (Api.request "/users/login" (Api.post data) w) as [[x|err] w1];
      cbn in *; congruence.
  - intros e H.
    destruct (Api.request "/users/register" (Api.post data) w) as [[x|err] w1];
      cbn in *; congruence.
  - intros response token H Htok Hfalsy.
    destruct (Api.request "/users/login" (Api.post data) w) as [[x|err] w1];
      cbn in *; [|done].
    injection H as ->. by rewrite Htok, Hfalsy.
  - intros response token H Htok Hfalsy.
    destruct (Api.request "/users/register" (Api.post data) w) as [[x|err] w1];
      cbn in *; [|done].
    injection H as ->. by rewrite Htok, Hfalsy.
Qed.

(** ** The word cache: what is written and what is kept *)

(** X9. [getEnhancedWordInfo] writes the cache only when its own request
    resolved: entries under other keys are never touched; when the call
    rejects, or sends nothing, the cache is as before; and when it
    resolves it either left the cache alone or stored its result under
    its key with the time of arrival. *)
Theorem cache_written_only_on_success `{Engine} (word : string) (w : World) :
  let '(r, w') := Api.getEnhancedWordInfo word w in
  (forall k, k <> Api.cacheKey word -> wordCache w' !! k = wordCache w !! k) /\
  (forall e, r = Throw e -> wordCache w' = wordCache w) /\
  (sent w' = sent w -> wordCache w' = wordCache w) /\
  (forall d, r = Ok d ->
     wordCache w' = wordCache w \/
     wordCache w' !! Api.cacheKey word
     = Some {| data := d; timestamp := now w' |}).
Proof.
  destruct (Api.fresh (wordCache w !! Api.cacheKey word) (now w))
    as [c|] eqn:Hf.
  - unfold Api.fresh in Hf.
    destruct (wordCache w !! Api.cacheKey word) as [c'|] eqn:Hc; [|done].
    destruct (Z.ltb_spec (Z.of_N (now w) - Z.of_N (timestamp c'))
                Api.CACHE_DURATION) as [Hlt|]; [|done].
    rewrite (enhanced_fresh word w c' Hc Hlt). repeat split; auto.
  - rewrite (enhanced_lookup word w Hf).
    pose proof (request_frame (Api.enhanced_endpoint word) Api.no_options w)
      as (Hsent & Hcache & _).
    destruct (Api.request (Api.enhanced_endpoint word) Api.no_options w)
      as [[d|e] w1]; cbn [snd] in *.
    + cbn [wordCache with_wordCache sent now]. repeat split.
      * intros k Hk. rewrite lookup_insert_ne by done. by rewrite Hcache.
      * done.
      * intros Hs. rewrite Hsent in Hs.
        apply (f_equal length) in Hs. rewrite length_app in Hs. cbn in Hs. lia.
      * intros d' [= <-]. right. apply lookup_insert_eq.
    + repeat split; try done.
      * intros k _. by rewrite Hcache.
      * intros d Hd. by left.
Qed.

Lemma enhanced_time `{Engine} (word : string) (w : World) :
  (now w <= now (snd (Api.getEnhancedWordInfo word w)))%N.
Proof.
  destruct (Api.fresh (wordCache w !! Api.cacheKey word) (now w))
    as [c|] eqn:Hf.
  - unfold Api.fresh in Hf.
    destruct (wordCache w !! Api.cacheKey word) as [c'|] eqn:Hc; [|done].
    destruct (Z.ltb_spec (Z.of_N (now w) - Z.of_N (timestamp c'))
                Api.CACHE_DURATION) as [Hlt|]; [|done].
    by rewrite (enhanced_fresh word w c' Hc Hlt).
  - rewrite (enhanced_lookup word w Hf).
    pose proof (request_frame (Api.enhanced_endpoint word) Api.no_options w)
      as (_ & _ & _ & _ & _ & _ & _ & Hnow).
    destruct (Api.request (Api.enhanced_endpoint word) Api.no_options w)
      as [[d|e] w1]; cbn in *; lia.
Qed.

Lemma lookups_time `{Engine} (words : list string) (w : World) :
  (now w <= now (snd (Api.lookups words w)))%N.
Proof.
  revert w. induction words as [|word words IH]; intros w; [done|].
  cbn [Api.lookups]. unfold_m. cbn [snd].
  pose proof (enhanced_time word w).
  pose proof (IH (snd (Api.getEnhancedWordInfo word w))).
  destruct (Api.lookups words _). cbn [snd] in *. lia.
Qed.

(** X10. An entry of the cache survives any series of lookups, for any
    words, as long as it is still fresh when the series ends: nothing
    evicts or overwrites an entry inside its freshness window. *)
Theorem fresh_entry_survives_lookups `{Engine}
    (words : list string) (w : World) (k : string) (c : CacheEntry) :
  wordCache w !! k = Some c ->
  let w' := snd (Api.lookups words w) in
  (Z.of_N (now w') - Z.of_N (timestamp c) < Api.CACHE_DURATION)%Z ->
  wordCache w' !! k = Some c.
Proof.
  revert w. induction words as [|word words IH]; intros w Hk; cbv zeta.
  - done.
  - cbn [Api.lookups]. unfold_m. cbn [snd].
    pose proof (enhanced_time word w) as H1.
    pose proof (lookups_time words (snd (Api.getEnhancedWordInfo word w))) as H2.
    specialize (IH (snd (Api.getEnhancedWordInfo word w))).
    destruct (Api.lookups words (snd (Api.getEnhancedWordInfo word w)))
      as [r w'] eqn:E.
    cbn [snd] in *. intros Hfresh. apply IH; [|done].
    apply enhanced_keeps_fresh_entry; [done|lia].
Qed.

Section LookupRuns.
#[local] Existing Instance ascii_engine.

Lemma fresh_entry_survives_lookups_witness :
  let w0 := Samples.browser (Samples.json_reply 200 "OK" Samples.hello) in
  let w := snd (Api.getEnhancedWordInfo "hello" w0) in
  let w' := snd (Api.lookups ["other"; "Hello"; "third"] w) in
  wordCache w' !! "enhanced_hello"
  = Some {| data := Samples.hello; timestamp := 1700000000120 |}.
Proof.
  cbv zeta.
  apply (fresh_entry_survives_lookups ["other"; "Hello"; "third"]
           (snd (Api.getEnhancedWordInfo "hello"
                   (Samples.browser (Samples.json_reply 200 "OK" Samples.hello))))
           "enhanced_hello"
           {| data := Samples.hello; timestamp := 1700000000120 |}).
  - reflexivity.
  - vm_compute. reflexivity.
Defined.

End LookupRuns.

(** ** URLs *)

Lemma encoded_char_clean (c d : ascii) :
  In d ["/"; "?"; "#"; "&"; "="; "+"; " "]%char ->
  mem_ascii d (if is_upper c || is_lower c || is_digit c
                  || mem_ascii c "-_.!~*'()"
               then String c "" else percent c) = false.
Proof.
  intros Hd. cbn [In] in Hd.
  destruct Hd as [<-|[<-|[<-|[<-|[<-|[<-|[<-|[]]]]]]]];
    destruct c as [[] [] [] [] [] [] [] []]; reflexivity.
Qed.

(** X11. The looked-up word cannot change the shape of the URL: the
    endpoints of the two word lookups are their fixed prefix followed by
    one path segment in which none of [/ ? # & = +] nor a space
    occurs. *)
Theorem word_endpoints_are_one_segment (word : string) (d : ascii) :
  In d ["/"; "?"; "#"; "&"; "="; "+"; " "]%char ->
  mem_ascii d (encodeURIComponent word) = false /\
  Api.meanings_endpoint word = "/words/meanings/" +:+ encodeURIComponent word /\
  Api.enhanced_endpoint word = "/words/enhanced/" +:+ encodeURIComponent word.
Proof.
  intros Hd. split; [|done].
  induction word as [|c word IH]; [done|].
  cbn [encodeURIComponent]. rewrite mem_ascii_app, IH.
  by rewrite (encoded_char_clean c d Hd).
Qed.

Lemma word_endpoints_are_one_segment_witness :
  mem_ascii "/" (encodeURIComponent "ice cream/../admin?x=1") = false /\
  Api.enhanced_endpoint "a/b" = "/words/enhanced/a%2Fb".
Proof.
  pose proof (word_endpoints_are_one_segment "ice cream/../admin?x=1" "/"
                (or_introl eq_refl)) as (H & _).
  split; [exact H|reflexivity].
Defined.

Lemma ends_with_app (x suffix : string) : ends_with (x +:+ suffix) suffix = true.
Proof.
  induction x as [|a x IH].
  - rewrite str_app_nil. destruct suffix; cbn [ends_with];
      by rewrite String.eqb_refl.
  - rewrite str_app_cons. cbn [ends_with]. rewrite IH. apply orb_true_r.
Qed.

(** X12. The base URL always ends in [/api]: whatever the environment
    holds, [getApiBaseUrl] returns such a URL, and so is the base URL
    after [setApiBaseUrl]; a URL that already ends in [/api] is taken as
    it is. *)
Theorem base_url_ends_with_api (env : Api.Environment) (url : string) (w : World) :
  ends_with (Api.getApiBaseUrl env) "/api" = true /\
  ends_with (baseURL (snd (Api.setApiBaseUrl url w))) "/api" = true /\
  (ends_with url "/api" = true ->
   baseURL (snd (Api.setApiBaseUrl url w)) = url) /\
  (forall u, Api.either (Api.VITE_API_URL env) (Api.VITE_API_BASE_URL env) = Some u ->
             ends_with u "/api" = true -> Api.getApiBaseUrl env = u).
Proof.
  split; [|split; [|split]].
  - unfold Api.getApiBaseUrl.
    destruct (Api.either _ _) as [u|].
    + destruct (ends_with u "/api") eqn:E; [done|apply ends_with_app].
    + destruct (Api.PROD env); [done|]. by case_bool_decide.
  - cbn. destruct (ends_with url "/api") eqn:E; [done|apply ends_with_app].
  - intros H. cbn. by rewrite H.
  - intros u Hu He. unfold Api.getApiBaseUrl. by rewrite Hu, He.
Qed.

(* ===================================================================== *)
(** * Further properties of the word-input screen *)
(* ===================================================================== *)
Section WordInputMore.
Import WordInput.
Context `{Engine}.

Ltac run_screen :=
  unfold perform, dispatch, handleContinue, handleBackToSearch,
    chooseMeaning, chooseCustom, setWord, setLoading,
    setError, setWordData, setSelectedMeaning, setCustomMeaning,
    setUseCustomMeaning, setGuestApiCount;
  unfold_m.

Ltac settle :=
  cbn in *; repeat split;
  first [ done | congruence
        | left; repeat split; first [done | congruence]
        | right; repeat split; first [done | congruence | lia] ].

(** What a submission can have done when it returns. *)
Lemma submit_summary (p : Props) (e : Env State) :
  let '(r, e') := dispatch (handleSubmit p) e in
  r = Ok tt /\
  word (ui e') = word (ui e) /\
  ((selectedMeaning (ui e') = selectedMeaning (ui e) /\
    customMeaning (ui e') = customMeaning (ui e) /\
    useCustomMeaning (ui e') = useCustomMeaning (ui e)) \/
   (selectedMeaning (ui e') = "" /\ customMeaning (ui e') = "" /\
    useCustomMeaning (ui e') = false)) /\
  ((guestApiCount (ui e') = guestApiCount (ui e) /\
    localStorage (world e') = localStorage (world e)) \/
   (isAuthenticated p = false /\
    at_least GUEST_API_LIMIT (guestApiCount (ui e)) = false /\
    guestApiCount (ui e') = succ (guestApiCount (ui e)) /\
    localStorage (world e')
    = <[GUEST_API_COUNT_KEY := num_toString (succ (guestApiCount (ui e)))]>
        (localStorage (world e)))) /\
  (effects (world e') = effects (world e) \/
   (effects (world e') = effects (world e) ++ [OnLoginRequired] /\
    isAuthenticated p = false /\
    at_least GUEST_API_LIMIT (guestApiCount (ui e)) = true /\
    sent (world e') = sent (world e))).
Proof.
  pose proof (enhanced_frame (trim (word (ui e))) (world e))
    as (_ & Hls1 & Heff1).
  pose proof (request_frame (Api.meanings_endpoint (trim (word (ui e))))
                Api.no_options
                (snd (Api.getEnhancedWordInfo (trim (word (ui e))) (world e))))
    as (_ & _ & Hls2 & Heff2 & _).
  destruct (decide (trim (word (ui e)) = "")) as [Hblank|Hword].
  { rewrite (submit_blank p e Hblank). settle. }
  assert (Hguard : isAuthenticated p = false ->
                   at_least GUEST_API_LIMIT (guestApiCount (ui e)) = true ->
                   let '(r, e') := dispatch (handleSubmit p) e in
                   r = Ok tt /\ ui e' = ui e /\
                   world e'
                   = with_effects (effects (world e) ++ [OnLoginRequired])
                       (world e)).
  { intros Hauth Hlim. by rewrite (submit_at_limit p e Hword Hauth Hlim). }
  assert (Hpass : isAuthenticated p = true \/
                  at_least GUEST_API_LIMIT (guestApiCount (ui e)) = false ->
                  dispatch (handleSubmit p) e = _)
    by exact (submit_lookup p e Hword).
  destruct (isAuthenticated p) eqn:Hauth;
    [|destruct (at_least GUEST_API_LIMIT (guestApiCount (ui e))) eqn:Hlim].
  2:{ specialize (Hguard eq_refl eq_refl).
      destruct (dispatch (handleSubmit p) e) as [r e'].
      destruct Hguard as (-> & -> & ->). settle. }
  all: rewrite Hpass by auto; clear Hpass Hguard; cbv zeta;
    destruct (Api.getEnhancedWordInfo (trim (word (ui e))) (world e))
      as [[d|err] w1]; cbn [snd] in *; [settle|];
    destruct (String.eqb _ Api.QUOTA_EXCEEDED); [|settle];
    unfold Api.getWordMeanings in *;
    destruct (Api.request _ Api.no_options w1) as [[a|err'] w2]; [|settle];
    destruct (prop a "word"); [|settle];
    destruct (prop a "meanings"); settle.
Qed.

(** What [handleContinue] can have done when it returns. *)
Lemma continue_summary (p : Props) (e : Env State) :
  let c := ui e in
  let '(r, e') := dispatch (handleContinue p) e in
  sent (world e') = sent (world e) /\
  localStorage (world e') = localStorage (world e) /\
  word (ui e') = word c /\ wordData (ui e') = wordData c /\
  selectedMeaning (ui e') = selectedMeaning c /\
  customMeaning (ui e') = customMeaning c /\
  useCustomMeaning (ui e') = useCustomMeaning c /\
  guestApiCount (ui e') = guestApiCount c /\
  ((r = Ok None /\ truthy (wordData c) = false /\ e' = e) \/
   (r = Ok None /\ truthy (wordData c) = true /\ isAuthenticated p = false /\
    effects (world e') = effects (world e) ++ [OnLoginRequired] /\
    ui e' = ui e) \/
   (r = Ok None /\ truthy (wordData c) = true /\ isAuthenticated p = true /\
    (if useCustomMeaning c then trim (customMeaning c) else selectedMeaning c) = "" /\
    error (ui e') = CHOOSE_A_MEANING /\
    effects (world e') = effects (world e)) \/
   (exists w ms,
      r = Ok (Some {| s_word := w; s_meanings := ms;
                      s_selected := selectedMeaning c;
                      s_custom := customMeaning c;
                      s_wordData := wordData c |}) /\
      prop (wordData c) "word" = Ok w /\
      prop (wordData c) "meanings" = Ok ms /\
      truthy (wordData c) = true /\ isAuthenticated p = true /\
      (if useCustomMeaning c then trim (customMeaning c) else selectedMeaning c) <> "" /\
      e' = e)).
Proof.
  cbv zeta. run_screen.
  destruct (truthy (wordData (ui e))) eqn:Hdata; cbn [negb].
  2:{ repeat split; try done. left. by destruct e. }
  destruct (isAuthenticated p); cbn [negb].
  2:{ cbn. repeat split; try done. right. left. done. }
  destruct (String.eqb_spec
              (if useCustomMeaning (ui e) then trim (customMeaning (ui e))
               else selectedMeaning (ui e)) "") as [Hm|Hm].
  { cbn. repeat split; try done. right. right. left. done. }
  destruct (wordData (ui e)) eqn:Hwd; try discriminate; cbn;
    (repeat split; try done); right; right; right;
    eexists _, _; (repeat split; try done); by destruct e.
Qed.

(** What one action on the screen can have done. *)
Lemma perform_summary (p : Props) (a : Action) (e : Env State) :
  let '(r, e') := perform p a e in
  r = Ok tt /\
  ((useCustomMeaning (ui e) = true -> selectedMeaning (ui e) = "") ->
   (useCustomMeaning (ui e') = true -> selectedMeaning (ui e') = "")) /\
  ((guestApiCount (ui e') = guestApiCount (ui e) /\
    localStorage (world e') = localStorage (world e)) \/
   (isAuthenticated p = false /\
    at_least GUEST_API_LIMIT (guestApiCount (ui e)) = false /\
    guestApiCount (ui e') = succ (guestApiCount (ui e)) /\
    localStorage (world e')
    = <[GUEST_API_COUNT_KEY := num_toString (succ (guestApiCount (ui e)))]>
        (localStorage (world e)))) /\
  (isAuthenticated p = true -> effects (world e') = effects (world e)).
Proof.
  destruct a.
  - cbn. repeat split; auto.
  - pose proof (submit_summary p e) as Hs. cbn [perform].
    destruct (dispatch (handleSubmit p) e) as [r e'].
    destruct Hs as (Hr & _ & Hsel & Hcount & Heff).
    split; [done|]. split; [|split; [done|]].
    + intros Hinv Hcustom.
      destruct Hsel as [(H1 & _ & H3)|(H1 & _)]; [|done].
      rewrite H1. apply Hinv. by rewrite <- H3.
    + intros Hauth. destruct Heff as [|(_ & Hguest & _)]; [done|congruence].
  - cbn. repeat split; auto; try discriminate.
  - cbn. repeat split; auto; try discriminate.
  - cbn. repeat split; auto; try discriminate.
  - cbn. repeat split; auto; try discriminate.
  - pose proof (continue_summary p e) as Hc. cbv zeta in Hc. cbn [perform].
    unfold_m. unfold dispatch in Hc.
    destruct (handleContinue p (ui e) e) as [r e'].
    destruct Hc as (_ & Hls & _ & _ & Hsel & _ & Hcustom & Hcount & Hcases).
    assert (Hok : exists o, r = Ok o).
    { destruct Hcases as [(-> & _)|[(-> & _)|[(-> & _)|(w & ms & -> & _)]]];
        by eexists. }
    destruct Hok as [o ->]. cbn.
    split; [done|]. split; [by rewrite Hsel, Hcustom|]. split; [by left|].
    intros Hauth.
    destruct Hcases as [(_ & _ & ->)|[(_ & _ & Hg & _)|[(_ & _ & _ & _ & _ & Hx)
                                                       |(w & ms & _ & _ & _ & _ & _ & _ & ->)]]];
      congruence.
Qed.

(** Actions in a row: the summaries add up. *)
Lemma perform_all_summary (p : Props) (actions : list Action) (e : Env State) :
  let '(r, e') := perform_all p actions e in
  r = Ok tt /\
  ((useCustomMeaning (ui e) = true -> selectedMeaning (ui e) = "") ->
   (useCustomMeaning (ui e') = true -> selectedMeaning (ui e') = "")) /\
  (isAuthenticated p = true ->
   guestApiCount (ui e') = guestApiCount (ui e) /\
   localStorage (world e') = localStorage (world e) /\
   effects (world e') = effects (world e)) /\
  (isAuthenticated p = false ->
   (forall n, guestApiCount (ui e) = Num n ->
      exists n', guestApiCount (ui e') = Num n' /\ (n <= n')%Z /\
                 ((n <= GUEST_API_LIMIT)%Z -> (n' <= GUEST_API_LIMIT)%Z)) /\
   (guestApiCount (ui e) = NaN -> guestApiCount (ui e') = NaN) /\
   ((guestApiCount (ui e') = guestApiCount (ui e) /\
     localStorage (world e') = localStorage (world e)) \/
    localStorage (world e') !! GUEST_API_COUNT_KEY
    = Some (num_toString (guestApiCount (ui e'))))).
Proof.
  revert e. induction actions as [|a actions IH]; intros e.
  - cbn. repeat split; auto. intros n ->. exists n. repeat split; auto; lia.
  - cbn [perform_all]. unfold_m.
    pose proof (perform_summary p a e) as Hstep.
    destruct (perform p a e) as [r e1].
    destruct Hstep as (-> & Hinv & Hcount & Heff).
    specialize (IH e1). destruct (perform_all p actions e1) as [r e2].
    destruct IH as (-> & Hinv2 & Hauth2 & Hguest2).
    split; [done|]. split; [tauto|]. split.
    + intros Hauth. destruct (Hauth2 Hauth) as (Hc & Hl & He).
      destruct Hcount as [[Hc1 Hl1]|(Hg & _)]; [|congruence].
      rewrite Hc, Hl, He, Hc1, Hl1. auto.
    + intros Hguest. destruct (Hguest2 Hguest) as (Hnum & Hnan & Hmirror).
      destruct Hcount as [[Hc1 Hl1]|(_ & Hlt & Hc1 & Hl1)].
      * rewrite <- Hc1, <- Hl1. auto.
      * split; [|split].
        -- intros n Hn. rewrite Hn in Hc1, Hlt. cbn in Hc1, Hlt.
           apply Z.leb_gt in Hlt.
           destruct (Hnum _ Hc1) as (n' & Hn' & Hle & Hmax).
           exists n'. split; [done|]. split; [lia|]. intros _. apply Hmax. lia.
        -- intros Hn. rewrite Hn in Hc1. cbn in Hc1. auto.
        -- right. destruct Hmirror as [[Hc2 Hl2]|Hm]; [|done].
           rewrite Hl2, Hl1, Hc2, Hc1. apply lookup_insert_eq.
Qed.


(** X14. For a signed-in user nothing on the screen is metered: after
    any series of actions the guest counter and local storage are as
    they were and no login prompt has been opened. *)
Theorem signed_in_search_is_unmetered
    (p : Props) (actions : list Action) (e : Env State) :
  isAuthenticated p = true ->
  let '(r, e') := perform_all p actions e in
  r = Ok tt /\
  guestApiCount (ui e') = guestApiCount (ui e) /\
  localStorage (world e') = localStorage (world e) /\
  effects (world e') = effects (world e).
Proof.
  intros Hauth. pose proof (perform_all_summary p actions e) as Hsum.
  destruct (perform_all p actions e) as [r e'].
  destruct Hsum as (Hr & _ & Hall & _). split; [done|]. by apply Hall.
Qed.

(** X15. For a guest the counter only goes up and never passes the
    limit of 3 it started within, whatever is typed and submitted; and
    once it has moved, local storage holds its current value. *)
Theorem guest_counter_stays_within_limit
    (p : Props) (actions : list Action) (e : Env State) (n : Z) :
  isAuthenticated p = false ->
  guestApiCount (ui e) = Num n ->
  (n <= GUEST_API_LIMIT)%Z ->
  let '(r, e') := perform_all p actions e in
  r = Ok tt /\
  (exists n', guestApiCount (ui e') = Num n' /\ (n <= n' <= 3)%Z) /\
  (guestApiCount (ui e') <> guestApiCount (ui e) ->
   localStorage (world e') !! GUEST_API_COUNT_KEY
   = Some (num_toString (guestApiCount (ui e')))).
Proof.
  intros Hguest Hn Hlim. pose proof (perform_all_summary p actions e) as Hsum.
  destruct (perform_all p actions e) as [r e'].
  destruct Hsum as (Hr & _ & _ & Hall).
  destruct (Hall Hguest) as (Hnum & _ & Hmirror).
  destruct (Hnum n Hn) as (n' & Hn' & Hle & Hmax).
  split; [done|]. split.
  - exists n'. split; [done|]. unfold GUEST_API_LIMIT in *. lia.
  - intros Hmoved. destruct Hmirror as [[Hsame _]|Hm]; [done|exact Hm].
Qed.


(** X17. [handleContinue] is guarded and sends nothing. Without word
    data it does nothing at all; a guest with word data gets the login
    prompt and no card is asked for; a signed-in user without a chosen
    meaning gets the "select a meaning" error; and [onWordSubmit] is
    called only for a signed-in user with word data and a meaning, with
    the word and meanings of the word data, leaving the screen as it
    is. The handler never throws. *)
Theorem continue_is_guarded (p : Props) (e : Env State) :
  let c := ui e in
  let '(r, e') := dispatch (handleContinue p) e in
  sent (world e') = sent (world e) /\
  (exists o, r = Ok o) /\
  (truthy (wordData c) = false -> r = Ok None /\ e' = e) /\
  (truthy (wordData c) = true -> isAuthenticated p = false ->
   r = Ok None /\ effects (world e') = effects (world e) ++ [OnLoginRequired]) /\
  (truthy (wordData c) = true -> isAuthenticated p = true ->
   (if useCustomMeaning c then trim (customMeaning c) else selectedMeaning c) = "" ->
   r = Ok None /\ error (ui e') = CHOOSE_A_MEANING /\
   effects (world e') = effects (world e)) /\
  (forall sub, r = Ok (Some sub) ->
     isAuthenticated p = true /\ truthy (wordData c) = true /\
     prop (wordData c) "word" = Ok (s_word sub) /\
     prop (wordData c) "meanings" = Ok (s_meanings sub) /\
     s_selected sub = selectedMeaning c /\ s_custom sub = customMeaning c /\
     e' = e).
Proof.
  cbv zeta. pose proof (continue_summary p e) as Hc. cbv zeta in Hc.
  destruct (dispatch (handleContinue p) e) as [r e'].
  destruct Hc as (Hsent & _ & _ & _ & _ & _ & _ & _ & Hcases).
  split; [done|].
  destruct Hcases as [(-> & Hd & ->)|[(-> & Hd & Hg & Heff & _)|
    [(-> & Hd & Ha & Hm & Herr & Heff)|
     (w & ms & -> & Hw & Hms & Hd & Ha & Hm & ->)]]].
  - split; [by eexists|]. repeat split; try done; congruence.
  - split; [by eexists|]. repeat split; try done; congruence.
  - split; [by eexists|]. repeat split; try done; congruence.
  - split; [by eexists|].
    split; [intros; congruence|]. split; [intros; congruence|].
    split; [intros; congruence|].
    intros sub [= <-]. done.
Qed.

(** X21. The counter is what the mount effect makes of local storage.
    Without a stored count, or with the empty string, the effect does
    nothing. A stored text that [parseInt] cannot read makes the counter
    [NaN], and then no submission ever opens the login prompt: the
    comparison with the limit is false, and the counter stays [NaN]
    when it is incremented. *)
Theorem unreadable_count_lifts_limit (p : Props) (e : Env State) :
  (localStorage (world e) !! GUEST_API_COUNT_KEY = None \/
   localStorage (world e) !! GUEST_API_COUNT_KEY = Some "" ->
   mount e = (Ok tt, e)) /\
  (forall s, localStorage (world e) !! GUEST_API_COUNT_KEY = Some s ->
     s <> "" ->
     guestApiCount (ui (snd (mount e))) = parseInt s /\
     world (snd (mount e)) = world e) /\
  (guestApiCount (ui e) = NaN ->
   let '(r, e') := dispatch (handleSubmit p) e in
   r = Ok tt /\ effects (world e') = effects (world e) /\
   guestApiCount (ui e') = NaN).
Proof.
  split; [|split].
  - intros [Hs|Hs]; unfold mount; unfold_m; rewrite Hs; by destruct e.
  - intros s Hs Hne. by rewrite (mount_stored e s Hs Hne).
  - intros Hnan. pose proof (submit_summary p e) as Hsum.
    destruct (dispatch (handleSubmit p) e) as [r e'].
    destruct Hsum as (Hr & _ & _ & Hcount & Heff).
    split; [done|]. split.
    + destruct Heff as [|(_ & _ & Hlim & _)]; [done|].
      by rewrite Hnan in Hlim.
    + destruct Hcount as [[Hc _]|(_ & _ & Hc & _)]; rewrite Hc, Hnan; done.
Qed.

End WordInputMore.

Section WordInputMoreRuns.
#[local] Existing Instance ascii_engine.

Lemma signed_in_search_is_unmetered_witness :
  let p := {| WordInput.isAuthenticated := true |} in
  let e := Samples.screen
             (Samples.browser (Samples.json_reply 200 "OK" Samples.hello))
             (Samples.typed "hello" 7) in
  let e' := snd (WordInput.perform_all p
                   [WordInput.Submit; WordInput.TypeWord "other";
                    WordInput.Submit; WordInput.Continue] e) in
  WordInput.guestApiCount (ui e') = Num 7 /\ effects (world e') = [] /\
  length (sent (world e')) = 2.
Proof.
  cbv zeta.
  pose proof (@signed_in_search_is_unmetered ascii_engine
    {| WordInput.isAuthenticated := true |}
    [WordInput.Submit; WordInput.TypeWord "other"; WordInput.Submit;
     WordInput.Continue]
    (Samples.screen
       (Samples.browser (Samples.json_reply 200 "OK" Samples.hello))
       (Samples.typed "hello" 7)) eq_refl) as H.
  destruct (WordInput.perform_all _ _ _) as [r e'] eqn:E.
  destruct H as (_ & Hc & _ & He). cbn [snd].
  split; [exact Hc|]. split; [exact He|].
  apply (f_equal (fun x => length (sent (world (snd x))))) in E.
  cbn [snd] in E. rewrite <- E. vm_compute. reflexivity.
Defined.

Lemma guest_counter_stays_within_limit_witness :
  let e := Samples.screen
             (Samples.guest_browser
                (fun _ => Samples.json_reply 200 "OK" Samples.hello))
             (Samples.typed "hello" 0) in
  let e' := snd (WordInput.perform_all Samples.guest
                   [WordInput.Submit; WordInput.Submit; WordInput.Submit;
                    WordInput.Submit; WordInput.Submit] e) in
  WordInput.guestApiCount (ui e') = Num 3 /\
  localStorage (world e') !! WordInput.GUEST_API_COUNT_KEY = Some "3" /\
  effects (world e') = [OnLoginRequired; OnLoginRequired].
Proof.
  cbv zeta.
  pose proof (@guest_counter_stays_within_limit ascii_engine Samples.guest
    [WordInput.Submit; WordInput.Submit; WordInput.Submit; WordInput.Submit;
     WordInput.Submit]
    (Samples.screen
       (Samples.guest_browser (fun _ => Samples.json_reply 200 "OK" Samples.hello))
       (Samples.typed "hello" 0)) 0%Z eq_refl eq_refl ltac:(discriminate)) as H.
  destruct (WordInput.perform_all _ _ _) as [r e'] eqn:E.
  destruct H as (_ & _ & Hmirror). cbn [snd].
  assert (Hcount : WordInput.guestApiCount (ui e') = Num 3).
  { apply (f_equal (fun x => WordInput.guestApiCount (ui (snd x)))) in E.
    cbn [snd] in E. rewrite <- E. vm_compute. reflexivity. }
  split; [exact Hcount|]. split.
  - rewrite Hmirror; [by rewrite Hcount|]. rewrite Hcount. discriminate.
  - apply (f_equal (fun x => effects (world (snd x)))) in E.
    cbn [snd] in E. rewrite <- E. vm_compute. reflexivity.
Defined.


Lemma unreadable_count_lifts_limit_witness :
  let e := Samples.screen
             (Samples.with_stored_count "many"
                (Samples.guest_browser
                   (fun _ => Samples.json_reply 200 "OK" Samples.hello)))
             (Samples.typed "hello" 0) in
  let e1 := snd (WordInput.mount e) in
  WordInput.guestApiCount (ui e1) = NaN /\
  effects (world (snd (dispatch (WordInput.handleSubmit Samples.guest) e1))) = [].
Proof.
  cbv zeta. split; [reflexivity|].
  pose proof (@unreadable_count_lifts_limit ascii_engine Samples.guest
    (snd (WordInput.mount
       (Samples.screen
          (Samples.with_stored_count "many"
             (Samples.guest_browser
                (fun _ => Samples.json_reply 200 "OK" Samples.hello)))
          (Samples.typed "hello" 0))))) as (_ & _ & H).
  specialize (H eq_refl).
  destruct (dispatch (WordInput.handleSubmit Samples.guest) _) as [r e'].
  destruct H as (_ & Heff & _). exact Heff.
Defined.

End WordInputMoreRuns.

(* ===================================================================== *)
(** * Further properties of the review session *)
(* ===================================================================== *)
Section ReviewSessionMore.
Import ReviewSession.

Ltac run_review :=
  unfold dispatch, loadDueCards, handleRating, setCards, setCurrentIndex,
    setShowAnswer, setLoading, setReviewing;
  unfold_m.

Lemma readable_prop (card : value) (name : string) :
  readable card -> exists v, prop card name = Ok v.
Proof. intros [H1 H2]. destruct card; try done; by eexists. Qed.

(** X18. A rating that arrives while another one is being recorded, or
    when the index is past the last card, is dropped: nothing is sent
    and the session is exactly as it was. *)
Theorem rating_in_flight_is_ignored
    (rating : ReviewRating) (e : Env State) (items : list value) :
  reviewing (ui e) = true \/
  (cards (ui e) = VArr items /\ (Z.of_nat (length items) <= currentIndex (ui e))%Z) ->
  dispatch (handleRating rating) e = (Ok tt, e).
Proof.
  intros [Hbusy|[Hcards Hpast]]; run_review.
  - by rewrite Hbusy.
  - destruct (reviewing (ui e)); [done|]. rewrite Hcards. cbn.
    apply Z.leb_le in Hpast. by rewrite Hpast.
Qed.

Lemma rating_in_flight_is_ignored_witness :
  let busy := {| cards := VArr [Samples.card "k1" "serendipity"];
                 currentIndex := 0; showAnswer := true; loading := false;
                 reviewing := true |} in
  let e := Samples.screen (Samples.browser Samples.server_error) busy in
  dispatch (handleRating Good) e = (Ok tt, e).
Proof.
  cbv zeta.
  apply (rating_in_flight_is_ignored Good _ []). left. reflexivity.
Defined.

(** X19. A rating whose [recordCardReview] call rejects does not move
    the session: index and answer stay, the "Failed to record review"
    toast is shown, the completion callback is not called and the
    session accepts ratings again. The handler does not throw. *)
Theorem failed_rating_keeps_position
    (rating : ReviewRating) (e : Env State) (items : list value)
    (card cid id : value) (err : exn) (w1 : World) :
  cards (ui e) = VArr items ->
  reviewing (ui e) = false ->
  (currentIndex (ui e) < Z.of_nat (length items))%Z ->
  item (cards (ui e)) (currentIndex (ui e)) = Ok card ->
  prop card "collectionId" = Ok cid ->
  prop card "id" = Ok id ->
  Api.recordCardReview cid id (rating_number rating) (world e) = (Throw err, w1) ->
  let '(r, e') := dispatch (handleRating rating) e in
  r = Ok tt /\
  currentIndex (ui e') = currentIndex (ui e) /\
  showAnswer (ui e') = showAnswer (ui e) /\
  cards (ui e') = cards (ui e) /\
  reviewing (ui e') = false /\
  effects (world e')
  = effects (world e) ++ [ShowToast "Failed to record review" "error"].
Proof.
  intros Hcards Hidle Hlt Hcard Hcid Hid Hrec.
  pose proof (request_frame "/users/review/record"
    (Api.post (VObj [("collectionId", cid); ("cardId", id);
                     ("rating", VNum (rating_number rating));
                     ("confidence", VUndefined);
                     ("questionType", VUndefined); ("timeSpent", VUndefined);
                     ("pronunciationScore", VUndefined)])) (world e))
    as (_ & _ & _ & Heff & _).
  unfold Api.recordCardReview in Hrec. rewrite Hrec in Heff. cbn [snd] in Heff.
  run_review. rewrite Hidle, Hcard, Hcards. cbn.
  apply Z.leb_gt in Hlt as ->.
  rewrite Hcid, Hid. unfold Api.recordCardReview. rewrite Hrec. cbn.
  rewrite Heff. repeat split; done.
Qed.

Lemma failed_rating_keeps_position_witness :
  let e := Samples.screen (Samples.browser Samples.server_error)
             (Samples.reviewing_card
                [Samples.card "k1" "serendipity"; Samples.card "k2" "ambitious"] 1) in
  let e' := snd (dispatch (handleRating Easy) e) in
  currentIndex (ui e') = 1%Z /\
  effects (world e') = [ShowToast "Failed to record review" "error"].
Proof.
  cbv zeta.
  pose proof (failed_rating_keeps_position Easy
    (Samples.screen (Samples.browser Samples.server_error)
       (Samples.reviewing_card
          [Samples.card "k1" "serendipity"; Samples.card "k2" "ambitious"] 1))
    _ _ _ _ _ _ eq_refl eq_refl eq_refl eq_refl eq_refl eq_refl eq_refl) as H.
  destruct (dispatch (handleRating Easy) _) as [r e'].
  destruct H as (_ & Hi & _ & _ & _ & Heff). split; [exact Hi|exact Heff].
Defined.

(** A network that accepts everything makes every request resolve. *)
Lemma request_accepted (endpoint : string) (options : Api.RequestInit) (w : World) :
  Api.accepts_all (server w) ->
  exists v, Api.request endpoint options w
            = (Ok v, with_request (Api.sends w endpoint options) w).
Proof.
  intros Hacc.
  destruct (Hacc (sent w ++ [Api.sends w endpoint options]))
    as (resp & v & Hout & Hok & Hpay).
  exists v. rewrite (request_ok endpoint options w resp Hout Hok).
  by rewrite Hpay.
Qed.

Lemma nth_readable (items : list value) (i : Z) :
  Forall readable items ->
  (0 <= i < Z.of_nat (length items))%Z ->
  readable (nth (Z.to_nat i) items VUndefined) /\
  item (VArr items) i = Ok (nth (Z.to_nat i) items VUndefined).
Proof.
  intros Hall Hi. split.
  - rewrite Forall_forall in Hall. apply Hall, list_elem_of_In, nth_In. lia.
  - cbn. destruct (Z.ltb_spec i 0); [lia|done].
Qed.

(** One rating on a network that accepts everything. *)
Lemma rating_accepted_step
    (rating : ReviewRating) (e : Env State) (items : list value) :
  cards (ui e) = VArr items ->
  Forall readable items ->
  reviewing (ui e) = false ->
  (0 <= currentIndex (ui e) < Z.of_nat (length items))%Z ->
  Api.accepts_all (server (world e)) ->
  let n := Z.of_nat (length items) in
  let i := currentIndex (ui e) in
  let '(r, e') := dispatch (handleRating rating) e in
  r = Ok tt /\
  cards (ui e') = VArr items /\
  reviewing (ui e') = false /\
  loading (ui e') = loading (ui e) /\
  server (world e') = server (world e) /\
  length (sent (world e')) = S (length (sent (world e))) /\
  (((i < n - 1)%Z /\ currentIndex (ui e') = (i + 1)%Z /\
    showAnswer (ui e') = false /\ effects (world e') = effects (world e)) \/
   (i = (n - 1)%Z /\ currentIndex (ui e') = i /\
    effects (world e')
    = effects (world e) ++
      [ShowToast (SESSION_COMPLETE (VNum n)) "success"; OnComplete])).
Proof.
  intros Hcards Hall Hidle Hin Hacc. cbv zeta.
  destruct (nth_readable items _ Hall Hin) as [Hread Hitem].
  destruct (readable_prop _ "collectionId" Hread) as [cid Hcid].
  destruct (readable_prop _ "id" Hread) as [id Hid].
  destruct (request_accepted "/users/review/record"
    (Api.post (VObj [("collectionId", cid); ("cardId", id);
                     ("rating", VNum (rating_number rating));
                     ("confidence", VUndefined);
                     ("questionType", VUndefined); ("timeSpent", VUndefined);
                     ("pronunciationScore", VUndefined)])) (world e) Hacc)
    as [v Hreq].
  run_review. rewrite Hidle, Hcards, Hitem. cbn.
  destruct Hin as [Hpos Hlt]. apply Z.leb_gt in Hlt as Hlt'. rewrite Hlt'.
  rewrite Hcid, Hid. unfold Api.recordCardReview. rewrite Hreq.
  destruct (Z.ltb_spec (currentIndex (ui e)) (Z.of_nat (length items) - 1))
    as [Hmore|Hlast]; cbn.
  - repeat split; try done.
    + rewrite length_app. cbn. lia.
    + left. repeat split; done.
  - repeat split; try done.
    + rewrite length_app. cbn. lia.
    + right. repeat split; [lia|]. by rewrite <- List.app_assoc.
Qed.

(** X20. A whole session: with [n] readable due cards, the session at
    card [i] and a network that accepts every request, submitting a
    rating for each of the [n - i] remaining cards sends exactly as many
    requests, ends on the last card and calls the completion callback
    exactly once, at the very end. *)
Theorem full_session_completes_once
    (ratings : list ReviewRating) (e : Env State) (items : list value) :
  cards (ui e) = VArr items ->
  Forall readable items ->
  reviewing (ui e) = false ->
  Api.accepts_all (server (world e)) ->
  (0 <= currentIndex (ui e))%Z ->
  ratings <> [] ->
  Z.of_nat (length ratings) = (Z.of_nat (length items) - currentIndex (ui e))%Z ->
  let n := Z.of_nat (length items) in
  let '(r, e') := rate_each ratings e in
  r = Ok tt /\
  currentIndex (ui e') = (n - 1)%Z /\
  length (sent (world e')) = length (sent (world e)) + length ratings /\
  effects (world e')
  = effects (world e) ++
    [ShowToast (SESSION_COMPLETE (VNum n)) "success"; OnComplete].
Proof.
  revert e. induction ratings as [|rating rest IH];
    intros e Hcards Hall Hidle Hacc Hpos Hne Hlen; [done|].
  cbv zeta. cbn [rate_each]. unfold_m. fold (dispatch (handleRating rating) e).
  cbn [length] in Hlen.
  pose proof (rating_accepted_step rating e items Hcards Hall Hidle
                ltac:(lia) Hacc) as Hstep. cbv zeta in Hstep.
  destruct (dispatch (handleRating rating) e) as [r e1].
  destruct Hstep as (-> & Hcards1 & Hidle1 & _ & Hsrv & Hsent & Hcase).
  destruct Hcase as [(Hmore & Hidx & _ & Heff)|(Hlast & Hidx & Heff)].
  - assert (Hrest : rest <> []) by (destruct rest; [cbn in Hlen; lia|done]).
    specialize (IH e1 Hcards1 Hall Hidle1). rewrite Hsrv, Hidx in IH.
    specialize (IH Hacc ltac:(lia) Hrest ltac:(lia)). cbv zeta in IH.
    destruct (rate_each rest e1) as [r' e2].
    destruct IH as (-> & Hi & Hs & He).
    split; [done|]. split; [done|]. split; [cbn [length]; lia|].
    by rewrite He, Heff.
  - assert (rest = []) as -> by (destruct rest; [done|cbn [length] in Hlen; lia]).
    cbn. split; [done|]. split; [lia|]. split; [lia|done].
Qed.

Lemma full_session_completes_once_witness :
  let e := Samples.screen
             (Samples.browser (Samples.json_reply 200 "OK" (VObj [])))
             (Samples.reviewing_card
                [Samples.card "k1" "serendipity"; Samples.card "k2" "ambitious"] 0) in
  let e' := snd (rate_each [Again; Good] e) in
  currentIndex (ui e') = 1%Z /\
  length (sent (world e')) = 2 /\
  effects (world e')
  = [ShowToast (SESSION_COMPLETE (VNum 2)) "success"; OnComplete].
Proof.
  cbv zeta.
  pose proof (full_session_completes_once [Again; Good]
    (Samples.screen
       (Samples.browser (Samples.json_reply 200 "OK" (VObj [])))
       (Samples.reviewing_card
          [Samples.card "k1" "serendipity"; Samples.card "k2" "ambitious"] 0))
    [Samples.card "k1" "serendipity"; Samples.card "k2" "ambitious"]
    eq_refl
    ltac:(repeat constructor; discriminate)
    eq_refl
    ltac:(intros log; eexists _, _; repeat split; reflexivity)
    ltac:(vm_compute; discriminate)
    ltac:(discriminate)
    eq_refl) as H.
  cbv zeta in H.
  destruct (rate_each [Again; Good] _) as [r e'].
  destruct H as (_ & Hi & Hs & He). cbn [snd].
  split; [exact Hi|]. split; [exact Hs|exact He].
Defined.

End ReviewSessionMore.
